(** * Motor-condition monitor: Sensing Node (Arduino Nano) and Forwarding Node (ESP8266)

    Shallow embedding of the two sketches of the repository:
    - the Arduino Nano sketch (RPM estimator, sensor read-out, relay
      control, frame encoder), and
    - the ESP8266 sketch (serial line reader, [sscanf] field split, JSON
      re-encoder, HTTP POST).

    Integers are modelled as [Z] with the wrap-around of the C type written
    out: on the Nano (AVR) [int] and [unsigned int] are 16 bits wide and
    [unsigned long] is 32 bits wide.  C strings are lists of 8-bit
    characters. *)

From Stdlib Require Import ZArith QArith List Bool Ascii String Lia.
Import ListNotations.
Local Open Scope Z_scope.

(** ** C strings and C integers *)

Definition cstring := list ascii.

Definition str (s : string) : cstring := list_ascii_of_string s.

Definition newline : ascii := ascii_of_nat 10.
Definition dquote : ascii := ascii_of_nat 34.
Definition backslash : ascii := ascii_of_nat 92.
Definition nul : ascii := ascii_of_nat 0.
Definition amp : ascii := ascii_of_nat 38.
Definition minus : ascii := ascii_of_nat 45.

(** 16-bit [unsigned int] and [int] of the AVR target. *)
Definition u16 (z : Z) : Z := z mod 65536.
Definition s16 (z : Z) : Z := (z + 32768) mod 65536 - 32768.
(** 32-bit [unsigned long]. *)
Definition u32 (z : Z) : Z := z mod 4294967296.

Definition is_u16 (z : Z) : Prop := 0 <= z < 65536.
Definition is_s16 (z : Z) : Prop := -32768 <= z < 32768.

(** Decimal rendering, least significant digit first into an accumulator,
    as [printf]'s [%d] produces it. *)
Definition digit (d : Z) : ascii := ascii_of_nat (48 + Z.to_nat d).

Fixpoint utoa (fuel : nat) (n : Z) (acc : cstring) : cstring :=
  match fuel with
  | O => acc
  | S fuel' =>
      let acc' := digit (n mod 10) :: acc in
      if n / 10 =? 0 then acc' else utoa fuel' (n / 10) acc'
  end.

(** [%d] on a value that fits ten decimal digits (16- and 32-bit [int]). *)
Definition fmt_d (n : Z) : cstring :=
  if n <? 0 then minus :: utoa 10 (- n) [] else utoa 10 n [].

(** [%d] applied to a 16-bit [unsigned int] argument: the variadic slot is
    read back as a 16-bit [int]. *)
Definition fmt_d_u16 (v : Z) : cstring := fmt_d (s16 v).

(** The number a decimal text denotes: an optional minus sign, then
    digits, read most significant first. *)
Definition digit_value (c : ascii) : Z := Z.of_nat (nat_of_ascii c) - 48.

Definition digits_value (l : cstring) (acc : Z) : Z :=
  fold_left (fun a c => a * 10 + digit_value c) l acc.

Definition decimal_value (l : cstring) : Z :=
  match l with
  | c :: rest => if Ascii.eqb c minus then - digits_value rest 0 else digits_value l 0
  | [] => 0
  end.

(** ** Floating point and the DHT library

    The sketch uses the AVR [float] type and the DHT sensor library, which
    are not part of the repository; they are an interface here. *)
Class FloatOps := {
  float : Type;
  isnan : float -> bool;
  of_uint : Z -> float;            (* unsigned int to float *)
  to_uint : float -> Z;            (* the cast (unsigned int) *)
  fdiv : float -> float -> float;
  fmul : float -> float -> float;
  lit_3_4 : float;
  lit_42_8 : float;
  lit_1000 : float;
  (* dht.computeHeatIndex(temperature, humidity, isFahrenheit) *)
  computeHeatIndex : float -> float -> bool -> float
}.

(** ** Sensing Node: the Arduino Nano sketch *)

Module Nano.

Inductive level := LOW | HIGH.

(** The three relay outputs: digital pins 10, 11 and 12. *)
Inductive relay_pin := RLY1 | RLY2 | RLY3.

(** Observable effects of the sketch: writes to the relay pins, bytes
    printed on the software-serial link to the ESP, the enabling and
    disabling of the speed-sensor interrupt, and the diagnostic line of
    [DHT11_read].  The other diagnostic prints on the hardware serial
    console carry no state and are left out. *)
Inductive event :=
| DigitalWrite (p : relay_pin) (l : level)
| EspPrint (s : cstring)
| DetachInterrupt
| AttachInterrupt
| SerialPrintln (s : cstring).

(** The global variables of the sketch, the levels last written to the
    relay pins and the state of the external interrupt. *)
Record state := mkState {
  pulseCount : Z;          (* volatile int *)
  startTime : Z;           (* unsigned long *)
  prpm : Z;                (* int *)
  Sensor1_Val : Z;         (* unsigned int, as are the next ten *)
  Sensor2_Val : Z;
  Sensor3_Val : Z;
  Sensor4_Val : Z;
  Sensor5_Val : Z;
  Sensor6_Val : Z;
  Sensor7_Val : Z;
  Sensor8_Val : Z;
  RLY1_STATUS : Z;
  RLY2_STATUS : Z;
  RLY3_STATUS : Z;
  yar : cstring;           (* char yar[10], written only when a branch matches *)
  out_RLY1 : level;
  out_RLY2 : level;
  out_RLY3 : level;
  irq_attached : bool
}.

Definition set_pulseCount v s :=
  mkState v (startTime s) (prpm s) (Sensor1_Val s) (Sensor2_Val s) (Sensor3_Val s)
    (Sensor4_Val s) (Sensor5_Val s) (Sensor6_Val s) (Sensor7_Val s) (Sensor8_Val s)
    (RLY1_STATUS s) (RLY2_STATUS s) (RLY3_STATUS s) (yar s)
    (out_RLY1 s) (out_RLY2 s) (out_RLY3 s) (irq_attached s).
Definition set_startTime v s :=
  mkState (pulseCount s) v (prpm s) (Sensor1_Val s) (Sensor2_Val s) (Sensor3_Val s)
    (Sensor4_Val s) (Sensor5_Val s) (Sensor6_Val s) (Sensor7_Val s) (Sensor8_Val s)
    (RLY1_STATUS s) (RLY2_STATUS s) (RLY3_STATUS s) (yar s)
    (out_RLY1 s) (out_RLY2 s) (out_RLY3 s) (irq_attached s).
Definition set_prpm v s :=
  mkState (pulseCount s) (startTime s) v (Sensor1_Val s) (Sensor2_Val s) (Sensor3_Val s)
    (Sensor4_Val s) (Sensor5_Val s) (Sensor6_Val s) (Sensor7_Val s) (Sensor8_Val s)
    (RLY1_STATUS s) (RLY2_STATUS s) (RLY3_STATUS s) (yar s)
    (out_RLY1 s) (out_RLY2 s) (out_RLY3 s) (irq_attached s).
Definition set_Sensor1_Val v s :=
  mkState (pulseCount s) (startTime s) (prpm s) v (Sensor2_Val s) (Sensor3_Val s)
    (Sensor4_Val s) (Sensor5_Val s) (Sensor6_Val s) (Sensor7_Val s) (Sensor8_Val s)
    (RLY1_STATUS s) (RLY2_STATUS s) (RLY3_STATUS s) (yar s)
    (out_RLY1 s) (out_RLY2 s) (out_RLY3 s) (irq_attached s).
Definition set_Sensor2_Val v s :=
  mkState (pulseCount s) (startTime s) (prpm s) (Sensor1_Val s) v (Sensor3_Val s)
    (Sensor4_Val s) (Sensor5_Val s) (Sensor6_Val s) (Sensor7_Val s) (Sensor8_Val s)
    (RLY1_STATUS s) (RLY2_STATUS s) (RLY3_STATUS s) (yar s)
    (out_RLY1 s) (out_RLY2 s) (out_RLY3 s) (irq_attached s).
Definition set_Sensor3_Val v s :=
  mkState (pulseCount s) (startTime s) (prpm s) (Sensor1_Val s) (Sensor2_Val s) v
    (Sensor4_Val s) (Sensor5_Val s) (Sensor6_Val s) (Sensor7_Val s) (Sensor8_Val s)
    (RLY1_STATUS s) (RLY2_STATUS s) (RLY3_STATUS s) (yar s)
    (out_RLY1 s) (out_RLY2 s) (out_RLY3 s) (irq_attached s).
(** The five environmental fields are only ever stored together. *)
Definition set_dht_fields t h f hic hif s :=
  mkState (pulseCount s) (startTime s) (prpm s) (Sensor1_Val s) (Sensor2_Val s)
    (Sensor3_Val s) t h f hic hif
    (RLY1_STATUS s) (RLY2_STATUS s) (RLY3_STATUS s) (yar s)
    (out_RLY1 s) (out_RLY2 s) (out_RLY3 s) (irq_attached s).
Definition set_RLY1_STATUS v s :=
  mkState (pulseCount s) (startTime s) (prpm s) (Sensor1_Val s) (Sensor2_Val s) (Sensor3_Val s)
    (Sensor4_Val s) (Sensor5_Val s) (Sensor6_Val s) (Sensor7_Val s) (Sensor8_Val s)
    v (RLY2_STATUS s) (RLY3_STATUS s) (yar s)
    (out_RLY1 s) (out_RLY2 s) (out_RLY3 s) (irq_attached s).
Definition set_RLY2_STATUS v s :=
  mkState (pulseCount s) (startTime s) (prpm s) (Sensor1_Val s) (Sensor2_Val s) (Sensor3_Val s)
    (Sensor4_Val s) (Sensor5_Val s) (Sensor6_Val s) (Sensor7_Val s) (Sensor8_Val s)
    (RLY1_STATUS s) v (RLY3_STATUS s) (yar s)
    (out_RLY1 s) (out_RLY2 s) (out_RLY3 s) (irq_attached s).
Definition set_RLY3_STATUS v s :=
  mkState (pulseCount s) (startTime s) (prpm s) (Sensor1_Val s) (Sensor2_Val s) (Sensor3_Val s)
    (Sensor4_Val s) (Sensor5_Val s) (Sensor6_Val s) (Sensor7_Val s) (Sensor8_Val s)
    (RLY1_STATUS s) (RLY2_STATUS s) v (yar s)
    (out_RLY1 s) (out_RLY2 s) (out_RLY3 s) (irq_attached s).
Definition set_yar v s :=
  mkState (pulseCount s) (startTime s) (prpm s) (Sensor1_Val s) (Sensor2_Val s) (Sensor3_Val s)
    (Sensor4_Val s) (Sensor5_Val s) (Sensor6_Val s) (Sensor7_Val s) (Sensor8_Val s)
    (RLY1_STATUS s) (RLY2_STATUS s) (RLY3_STATUS s) v
    (out_RLY1 s) (out_RLY2 s) (out_RLY3 s) (irq_attached s).
Definition set_out (p : relay_pin) (l : level) s :=
  mkState (pulseCount s) (startTime s) (prpm s) (Sensor1_Val s) (Sensor2_Val s) (Sensor3_Val s)
    (Sensor4_Val s) (Sensor5_Val s) (Sensor6_Val s) (Sensor7_Val s) (Sensor8_Val s)
    (RLY1_STATUS s) (RLY2_STATUS s) (RLY3_STATUS s) (yar s)
    (match p with RLY1 => l | _ => out_RLY1 s end)
    (match p with RLY2 => l | _ => out_RLY2 s end)
    (match p with RLY3 => l | _ => out_RLY3 s end)
    (irq_attached s).
Definition set_irq_attached b s :=
  mkState (pulseCount s) (startTime s) (prpm s) (Sensor1_Val s) (Sensor2_Val s) (Sensor3_Val s)
    (Sensor4_Val s) (Sensor5_Val s) (Sensor6_Val s) (Sensor7_Val s) (Sensor8_Val s)
    (RLY1_STATUS s) (RLY2_STATUS s) (RLY3_STATUS s) (yar s)
    (out_RLY1 s) (out_RLY2 s) (out_RLY3 s) b.

Definition out (p : relay_pin) (s : state) : level :=
  match p with RLY1 => out_RLY1 s | RLY2 => out_RLY2 s | RLY3 => out_RLY3 s end.

(** *** Procedures: state passing with an effect log *)

Definition proc := state -> state * list event.

Definition skip : proc := fun s => (s, []).
Definition assign (f : state -> state) : proc := fun s => (f s, []).
Definition emit (e : event) : proc := fun s => (s, [e]).
Definition seq (p q : proc) : proc :=
  fun s => let r1 := p s in let r2 := q (fst r1) in (fst r2, snd r1 ++ snd r2).
Definition branch (c : state -> bool) (p q : proc) : proc :=
  fun s => if c s then p s else q s.
Definition when (c : state -> bool) (p : proc) : proc := branch c p skip.

Notation "p ;; q" := (seq p q) (at level 61, right associativity).

Definition digitalWrite (p : relay_pin) (l : level) : proc :=
  fun s => (set_out p l s, [DigitalWrite p l]).
Definition detachInterrupt : proc :=
  fun s => (set_irq_attached false s, [DetachInterrupt]).
Definition attachInterrupt : proc :=
  fun s => (set_irq_attached true s, [AttachInterrupt]).

(** *** Thresholds and constants *)

Definition MEASUREMENT_DURATION_MS : Z := 10000.
Definition CURRENT_NORMAL : Z := 230.
Definition VOLTAGE_NORMAL : Z := 10000.
Definition DHT11_NORMAL : Z := 30.

(** *** The edge handler and the RPM estimator *)

(** [countPulse]: the interrupt service routine, run on a rising edge
    while the interrupt is attached. *)
Definition countPulse (s : state) : state :=
  set_pulseCount (s16 (pulseCount s + 1)) s.

(** The new value of [prpm], in 16-bit [int] arithmetic; [/] on [int]
    truncates toward zero. *)
Definition next_prpm (pc p : Z) : Z :=
  if pc =? 0 then 0
  else if p =? 0 then s16 (pc * 3)
  else Z.quot (s16 (p + s16 (pc * 3))) 2.

Definition Cal_RPM : proc :=
  detachInterrupt ;;
  assign (fun s => set_prpm (next_prpm (pulseCount s) (prpm s)) s) ;;
  assign (fun s => set_Sensor3_Val (u16 (prpm s)) s) ;;
  assign (set_pulseCount 0) ;;
  attachInterrupt.

(** *** Relay control *)

Definition RelayOperation : proc :=
  branch (fun s => Sensor2_Val s <=? VOLTAGE_NORMAL)
    (when (fun s => RLY2_STATUS s =? 1) (digitalWrite RLY2 HIGH) ;;
     assign (set_RLY2_STATUS 0))
    (when (fun s => VOLTAGE_NORMAL <? Sensor2_Val s)
       (when (fun s => RLY2_STATUS s =? 0) (digitalWrite RLY2 LOW) ;;
        assign (set_RLY2_STATUS 1))) ;;
  branch (fun s => Sensor1_Val s <=? CURRENT_NORMAL)
    (when (fun s => RLY1_STATUS s =? 1) (digitalWrite RLY1 HIGH) ;;
     assign (set_RLY1_STATUS 0))
    (when (fun s => CURRENT_NORMAL <? Sensor1_Val s)
       (when (fun s => RLY1_STATUS s =? 0) (digitalWrite RLY1 LOW) ;;
        assign (set_RLY1_STATUS 1))) ;;
  branch (fun s => Sensor4_Val s <=? DHT11_NORMAL)
    (when (fun s => RLY3_STATUS s =? 1) (digitalWrite RLY3 HIGH) ;;
     assign (set_RLY3_STATUS 0))
    (when (fun s => DHT11_NORMAL <? Sensor4_Val s)
       (when (fun s => RLY3_STATUS s =? 0) (digitalWrite RLY3 LOW) ;;
        assign (set_RLY3_STATUS 1))).

(** Assignment to the flag of a channel. *)
Definition set_flag (p : relay_pin) (v : Z) (s : state) : state :=
  match p with
  | RLY1 => set_RLY1_STATUS v s
  | RLY2 => set_RLY2_STATUS v s
  | RLY3 => set_RLY3_STATUS v s
  end.

(** *** Frame encoder (the body of [loop] after the three stages) *)

Definition relay_token (status : Z) : cstring :=
  if status =? 0 then str "OFF" else str "ON".

(** The combined status: [yar] keeps its previous contents when neither
    condition holds. *)
Definition update_yar : proc :=
  branch (fun s => (RLY1_STATUS s =? 0) && (RLY2_STATUS s =? 0) && (RLY3_STATUS s =? 0))
    (assign (set_yar (str "NOR")))
    (when (fun s => (RLY1_STATUS s =? 1) || (RLY2_STATUS s =? 1) || (RLY3_STATUS s =? 1))
       (assign (set_yar (str "BUZ")))).

(** The thirteen fields that follow the type tag, in frame order: [foo],
    [bar], [goo], [har], [ioo], [jar], [loo], [mar], [nob], [tot], [zar],
    [yar], [uar]. *)
Definition frame_fields (s : state) : list cstring :=
  [ fmt_d_u16 (Sensor1_Val s); fmt_d_u16 (Sensor2_Val s); fmt_d_u16 (Sensor3_Val s);
    fmt_d_u16 (Sensor4_Val s); fmt_d_u16 (Sensor5_Val s); fmt_d_u16 (Sensor6_Val s);
    fmt_d_u16 (Sensor7_Val s); fmt_d_u16 (Sensor8_Val s);
    relay_token (RLY1_STATUS s); relay_token (RLY2_STATUS s); relay_token (RLY3_STATUS s);
    yar s; str "RSV" ].

(** [strcpy(str, "ADU_TEXT&")] followed by the [strcat] chain. *)
Fixpoint strcat_fields (fs : list cstring) : cstring :=
  match fs with
  | [] => []
  | [f] => f
  | f :: rest => f ++ amp :: strcat_fields rest
  end.

Definition frame (s : state) : cstring :=
  str "ADU_TEXT&" ++ strcat_fields (frame_fields s).

Definition send_frame : proc :=
  update_yar ;; (fun s => (s, [EspPrint (frame s)])).

(** *** Vocabulary of the statements about the Sensing Node *)

(** A relay channel pairs a sample with a bound and a flag: current on
    [RLY1], voltage on [RLY2], temperature on [RLY3]. *)
Definition sample (p : relay_pin) (s : state) : Z :=
  match p with RLY1 => Sensor1_Val s | RLY2 => Sensor2_Val s | RLY3 => Sensor4_Val s end.
Definition bound (p : relay_pin) : Z :=
  match p with RLY1 => CURRENT_NORMAL | RLY2 => VOLTAGE_NORMAL | RLY3 => DHT11_NORMAL end.
Definition flag (p : relay_pin) (s : state) : Z :=
  match p with RLY1 => RLY1_STATUS s | RLY2 => RLY2_STATUS s | RLY3 => RLY3_STATUS s end.

(** The block that [RelayOperation] repeats, with the channel as a
    parameter. *)
Definition relay_block (p : relay_pin) : proc :=
  branch (fun s => sample p s <=? bound p)
    (when (fun s => flag p s =? 1) (digitalWrite p HIGH) ;;
     assign (set_flag p 0))
    (when (fun s => bound p <? sample p s)
       (when (fun s => flag p s =? 0) (digitalWrite p LOW) ;;
        assign (set_flag p 1))).

(** The threshold predicate [sample > bound]. *)
Definition triggered (p : relay_pin) (s : state) : bool := bound p <? sample p s.

(** Flag value and pin level that stand for a predicate value; the relays
    are active low. *)
Definition flag_of (b : bool) : Z := if b then 1 else 0.
Definition level_of (b : bool) : level := if b then LOW else HIGH.

Definition relay_pin_eqb (p r : relay_pin) : bool :=
  match p, r with RLY1, RLY1 | RLY2, RLY2 | RLY3, RLY3 => true | _, _ => false end.

(** Number of [digitalWrite] calls on pin [p] in an effect log. *)
Definition writes_to (p : relay_pin) (es : list event) : nat :=
  List.length (filter (fun e => match e with
                                | DigitalWrite r _ => relay_pin_eqb p r
                                | _ => false
                                end) es).

(** Every flag is 0 or 1. *)
Definition flags_ok (s : state) : Prop := forall p, flag p s = 0 \/ flag p s = 1.

(** Every pin carries the level that stands for its flag. *)
Definition relay_inv (s : state) : Prop :=
  forall p, exists b, flag p s = flag_of b /\ out p s = level_of b.

(** The byte strings printed on the link to the ESP. *)
Fixpoint esp_output (es : list event) : list cstring :=
  match es with
  | [] => []
  | EspPrint b :: es' => b :: esp_output es'
  | _ :: es' => esp_output es'
  end.

(** The aggregate status field of the frame: the twelfth field after the
    type tag. *)
Definition aggregate_field (s : state) : cstring := nth 11 (frame_fields s) [].

(** The status field of a relay channel: the ninth to eleventh field after
    the type tag. *)
Definition relay_field (p : relay_pin) (s : state) : cstring :=
  nth (match p with RLY1 => 8 | RLY2 => 9 | RLY3 => 10 end) (frame_fields s) [].

Definition all_off (s : state) : Prop :=
  RLY1_STATUS s = 0 /\ RLY2_STATUS s = 0 /\ RLY3_STATUS s = 0.

(** The five environmental fields of the sample. *)
Definition env_fields (s : state) : Z * Z * Z * Z * Z :=
  (Sensor4_Val s, Sensor5_Val s, Sensor6_Val s, Sensor7_Val s, Sensor8_Val s).

(** Two states with the same relay flags and pin levels. *)
Definition same_relays (s s' : state) : Prop :=
  forall p, flag p s' = flag p s /\ out p s' = out p s.

(** The value [v] lies between [a] and [b], in either order. *)
Definition between (a b v : Z) : Prop := Z.min a b <= v <= Z.max a b.

(** Every integer variable holds a value of its C type. *)
Definition in_range (s : state) : Prop :=
  is_s16 (pulseCount s) /\ is_s16 (prpm s) /\ 0 <= startTime s < 4294967296 /\
  is_u16 (Sensor1_Val s) /\ is_u16 (Sensor2_Val s) /\ is_u16 (Sensor3_Val s) /\
  is_u16 (Sensor4_Val s) /\ is_u16 (Sensor5_Val s) /\ is_u16 (Sensor6_Val s) /\
  is_u16 (Sensor7_Val s) /\ is_u16 (Sensor8_Val s).

(** The interrupt is enabled. *)
Definition attached (s : state) : Prop := irq_attached s = true.

(** A procedure keeps a property of the state. *)
Definition preserves (P : state -> Prop) (p : proc) : Prop :=
  forall s, P s -> P (fst (p s)).

(** The length of the longest field among the thirteen after the tag. *)
Definition longest_field (s : state) : nat :=
  fold_right Nat.max 0%nat (map (@List.length ascii) (frame_fields s)).

(** The result of raising [n] edges on the speed input. *)
Definition edges (n : nat) (s : state) : state := Nat.iter n countPulse s.

(** *** Sensor read-out, [setup] and [loop] *)

Section Sampling.
Context {F : FloatOps}.

(** What the environment supplies during one pass of [loop]: the two
    readings of [millis()], the two [analogRead] results and the three
    readings of the DHT sensor. *)
Record inputs := mkInputs {
  millis_check : Z;
  millis_end : Z;
  analog_current : Z;
  analog_voltage : Z;
  dht_humidity : float;
  dht_temperature : float;
  dht_fahrenheit : float
}.

Definition DHT11_read (i : inputs) : proc :=
  let h := dht_humidity i in
  let t := dht_temperature i in
  let f := dht_fahrenheit i in
  if isnan h || isnan t || isnan f then
    emit (SerialPrintln (str "Failed to read from DHT sensor!"))
  else
    let hif := computeHeatIndex f h true in
    let hic := computeHeatIndex t h false in
    assign (set_dht_fields (u16 (to_uint t)) (u16 (to_uint h)) (u16 (to_uint f))
              (u16 (to_uint hic)) (u16 (to_uint hif))).

Definition ReadSensor_values (i : inputs) : proc :=
  assign (set_Sensor1_Val 0) ;;
  assign (set_Sensor2_Val 0) ;;
  assign (set_Sensor1_Val (u16 (analog_current i))) ;;
  branch (fun s => Sensor1_Val s <? 20)
    (assign (set_Sensor1_Val 0))
    (assign (fun s => set_Sensor1_Val (u16 (to_uint (fdiv (of_uint (Sensor1_Val s)) lit_3_4))) s)) ;;
  assign (set_Sensor2_Val (u16 (analog_voltage i))) ;;
  assign (fun s => set_Sensor2_Val
            (u16 (to_uint (fmul (fdiv (of_uint (Sensor2_Val s)) lit_42_8) lit_1000))) s) ;;
  when (fun s => Sensor2_Val s <=? 1000) (assign (set_Sensor2_Val 0)) ;;
  DHT11_read i.

(** The globals as the C runtime zero-initialises them; the relay pins
    read LOW until [setup] drives them. *)
Definition init : state :=
  mkState 0 0 0 0 0 0 0 0 0 0 0 0 0 0 [] LOW LOW LOW false.

Definition setup (millis : Z) : proc :=
  digitalWrite RLY1 HIGH ;;
  digitalWrite RLY2 HIGH ;;
  digitalWrite RLY3 HIGH ;;
  attachInterrupt ;;
  assign (set_startTime (u32 (millis + MEASUREMENT_DURATION_MS))).

Definition loop (i : inputs) : proc :=
  when (fun s => MEASUREMENT_DURATION_MS <=? u32 (millis_check i - startTime s))
    (Cal_RPM ;;
     ReadSensor_values i ;;
     RelayOperation ;;
     send_frame ;;
     assign (set_startTime (u32 (millis_end i)))).

(** States the sketch can be in between two passes of [loop]. *)
Inductive reachable : state -> Prop :=
| reach_setup millis : reachable (fst (setup millis init))
| reach_edge s : reachable s -> irq_attached s = true -> reachable (countPulse s)
| reach_loop s i : reachable s -> reachable (fst (loop i s)).

(** The value [ReadSensor_values] derives from a raw current reading: 0
    below 20, else the reading divided by 3.4. *)
Definition scaled_current (raw : Z) : Z :=
  if u16 raw <? 20 then 0
  else u16 (to_uint (fdiv (of_uint (u16 raw)) lit_3_4)).

(** The value it derives from a raw voltage reading: the reading divided
    by 42.8 and multiplied by 1000, forced to 0 up to 1000. *)
Definition scaled_voltage (raw : Z) : Z :=
  let v := u16 (to_uint (fmul (fdiv (of_uint (u16 raw)) lit_42_8) lit_1000)) in
  if v <=? 1000 then 0 else v.

(** The guard of [loop]: the measurement window has elapsed. *)
Definition due (i : inputs) (s : state) : bool :=
  MEASUREMENT_DURATION_MS <=? u32 (millis_check i - startTime s).

End Sampling.

End Nano.

(** ** Forwarding Node: the ESP8266 sketch *)

Module Esp.

(** *** The C library pieces the sketch calls *)

(** [isspace] of the C locale: space and the controls 9 to 13. *)
Definition isspace (c : ascii) : bool :=
  let n := nat_of_ascii c in
  ((n =? 32) || ((9 <=? n) && (n <=? 13)))%nat.

(** The conversion directives that occur in the format string. *)
Inductive directive :=
| Scanset (width : nat) (excluded : ascii)   (* %<width>[^<excluded>] *)
| Literal (c : ascii)                        (* an ordinary character *)
| Word (width : nat).                        (* %<width>s *)

(** Longest prefix of at most [w] characters that satisfy [p]. *)
Fixpoint span (p : ascii -> bool) (w : nat) (inp : cstring) : cstring * cstring :=
  match w, inp with
  | S w', c :: rest =>
      if p c then let (m, r) := span p w' rest in (c :: m, r) else ([], inp)
  | _, _ => ([], inp)
  end.

Fixpoint skip_space (inp : cstring) : cstring :=
  match inp with
  | c :: rest => if isspace c then skip_space rest else inp
  | [] => []
  end.

(** One pass over the format: the converted fields in order, and whether
    the scan stopped on an input failure (end of the string) rather than
    on a matching failure or the end of the format. *)
Fixpoint scan (fmt : list directive) (inp : cstring) : list cstring * bool :=
  match fmt with
  | [] => ([], false)
  | Scanset w x :: fmt' =>
      match inp with
      | [] => ([], true)
      | _ :: _ =>
          let (m, rest) := span (fun c => negb (Ascii.eqb c x)) w inp in
          match m with
          | [] => ([], false)
          | _ :: _ => let (ms, eof) := scan fmt' rest in (m :: ms, eof)
          end
      end
  | Literal c :: fmt' =>
      match inp with
      | [] => ([], true)
      | d :: rest => if Ascii.eqb d c then scan fmt' rest else ([], false)
      end
  | Word w :: fmt' =>
      match skip_space inp with
      | [] => ([], true)
      | (_ :: _) as inp' =>
          let (m, rest) := span (fun c => negb (isspace c)) w inp' in
          let (ms, eof) := scan fmt' rest in (m :: ms, eof)
      end
  end.

(** The destinations are overwritten in argument order, one per
    conversion; the remaining ones are not touched. *)
Fixpoint assign_args (ms : list cstring) (args : list cstring) : list cstring :=
  match ms, args with
  | m :: ms', _ :: args' => m :: assign_args ms' args'
  | _, _ => args
  end.

Definition EOF : Z := -1.

(** [sscanf]: its return value and the destinations after the call. *)
Definition sscanf (inp : cstring) (fmt : list directive) (args : list cstring)
  : Z * list cstring :=
  let (ms, eof) := scan fmt inp in
  (match ms with
   | [] => if eof then EOF else 0
   | _ :: _ => Z.of_nat (List.length ms)
   end,
   assign_args ms args).

(** The bytes of a buffer up to its first NUL. *)
Fixpoint c_str (b : cstring) : cstring :=
  match b with
  | [] => []
  | c :: rest => if Ascii.eqb c nul then [] else c :: c_str rest
  end.

(** [Stream::readBytesUntil]: [rx] holds the bytes that arrive before the
    read times out.  Returns the bytes stored and the bytes left unread;
    the terminator is consumed and not stored. *)
Fixpoint readBytesUntil (terminator : ascii) (len : nat) (rx : cstring)
  : cstring * cstring :=
  match len, rx with
  | S n, c :: rest =>
      if Ascii.eqb c terminator then ([], rest)
      else let (l, r) := readBytesUntil terminator n rest in (c :: l, r)
  | _, _ => ([], rx)
  end.

(** *** Globals *)

(** [data1] .. [data14], each a [char[30]], initially empty. *)
Definition buffers := list cstring.

Definition init : buffers := repeat [] 14.

Definition data (n : nat) (d : buffers) : cstring := nth (n - 1) d [].

Definition serverUrl : cstring := str "http://10.91.43.21:5000/send-data".

(** The format string of [loop]: thirteen times [%29[^&]&], then [%29s]. *)
Definition frame_format : list directive :=
  List.concat (repeat [Scanset 29 amp; Literal amp] 13) ++ [Word 29].

(** *** Effects *)

Inductive event :=
| SerialPrint (s : cstring)
| HttpAddHeader (name value : cstring)
| HttpPost (url body : cstring)
| HttpEnd
| WiFiBegin
| Delay (ms : Z).

Definition println (s : cstring) : event :=
  SerialPrint (s ++ [ascii_of_nat 13; newline]).

(** What the network answers during one call of [sendData]. *)
Record network := mkNetwork {
  wifi_connected : bool;
  http_begin_ok : bool;
  httpResponseCode : Z;
  response : cstring;
  error_text : cstring       (* http.errorToString(httpResponseCode) *)
}.

(** *** [sendData] *)

Definition q (s : string) : cstring := dquote :: str s ++ [dquote].

(** The text [sprintf] produces for the JSON template. *)
Definition json (d : buffers) : cstring :=
  str "{" ++ q "TYPE" ++ str ": " ++ dquote :: data 1 d ++ dquote ::
  str ", " ++ q "VAL1" ++ str ": " ++ dquote :: data 2 d ++ dquote ::
  str ", " ++ q "VAL2" ++ str ": " ++ dquote :: data 3 d ++ dquote ::
  str ", " ++ q "VAL3" ++ str ": " ++ dquote :: data 4 d ++ dquote ::
  str ", " ++ q "VAL4" ++ str ": " ++ dquote :: data 5 d ++ dquote ::
  str ", " ++ q "VAL5" ++ str ": " ++ dquote :: data 6 d ++ dquote ::
  str ", " ++ q "VAL6" ++ str ": " ++ dquote :: data 7 d ++ dquote ::
  str ", " ++ q "VAL7" ++ str ": " ++ dquote :: data 8 d ++ dquote ::
  str ", " ++ q "VAL8" ++ str ": " ++ dquote :: data 9 d ++ dquote ::
  str ", " ++ q "VAL9" ++ str ": " ++ dquote :: data 10 d ++ dquote ::
  str ", " ++ q "VAL10" ++ str ": " ++ dquote :: data 11 d ++ dquote ::
  str ", " ++ q "VAL11" ++ str ": " ++ dquote :: data 12 d ++ dquote ::
  str ", " ++ q "VAL12" ++ str ": " ++ dquote :: data 13 d ++ dquote ::
  str "}".

(** [sprintf] into [char jsonBuffer[300]]: the text and its NUL must fit;
    writing past the buffer is undefined and has no result here. *)
Definition sprintf_json (d : buffers) : option cstring :=
  let j := json d in
  if (List.length j <? 300)%nat then Some j else None.

Definition sendData (net : network) (d : buffers) : option (list event) :=
  if wifi_connected net then
    if http_begin_ok net then
      match sprintf_json d with
      | None => None
      | Some jsonBuffer =>
          Some ([ println (str "Attempting HTTP POST...");
                  HttpAddHeader (str "Content-Type") (str "application/json");
                  SerialPrint (str "Sending JSON: ");
                  println jsonBuffer;
                  HttpPost serverUrl jsonBuffer ] ++
                (if 0 <? httpResponseCode net then
                   [ SerialPrint (str "HTTP Response Code: " ++
                                  fmt_d (httpResponseCode net) ++ [newline]);
                     println (str "Server Response: " ++ response net) ]
                 else
                   [ SerialPrint (str "HTTP POST failed. Error code: " ++
                                  fmt_d (httpResponseCode net) ++ str " - " ++
                                  error_text net ++ [newline]) ]) ++
                [ HttpEnd ])
      end
    else
      Some [ println (str "Attempting HTTP POST...");
             println (str "HTTP begin failed. Check serverUrl or network.") ]
  else
    Some [ println (str "WiFi not connected. Attempting to reconnect...");
           WiFiBegin ].

(** *** [setup] *)

(** The wait for the association: [polls] are the successive answers to
    [WiFi.status() == WL_CONNECTED]; each negative answer costs a delay of
    500 ms and a dot.  No result while the answers given are all
    negative. *)
Fixpoint await_connection (polls : list bool) : option (list event) :=
  match polls with
  | [] => None
  | true :: _ => Some []
  | false :: rest =>
      option_map (fun ev => Delay 500 :: SerialPrint (str ".") :: ev)
        (await_connection rest)
  end.

Definition setup (localIP : cstring) (polls : list bool) : option (list event) :=
  option_map
    (fun waited =>
       SerialPrint (str "Connecting to WiFi...") :: WiFiBegin :: waited ++
       [ println (newline :: str "Connected to WiFi!");
         SerialPrint (str "IP Address: ");
         println localIP ])
    (await_connection polls).

(** *** [loop] *)

(** The diagnostic prints between the split and [sendData]. *)
Definition parse_report (receivedBuffer : cstring) (numParsed : Z) (d : buffers)
  : list event :=
  [ SerialPrint (str "Received from Serial: ");
    println receivedBuffer;
    SerialPrint (str "Parsed " ++ fmt_d numParsed ++ str " data segments." ++ [newline]);
    SerialPrint (str "data1 (TYPE): " ++ data 1 d ++ [newline]);
    SerialPrint (str "data2 (VAL1): " ++ data 2 d ++ str ", data3 (VAL2): " ++ data 3 d ++
                 str ", data4 (VAL3): " ++ data 4 d ++ str ", data5 (VAL4): " ++ data 5 d ++
                 [newline]);
    SerialPrint (str "data6 (VAL5): " ++ data 6 d ++ str ", data7 (VAL6): " ++ data 7 d ++
                 str ", data8 (VAL7): " ++ data 8 d ++ [newline]);
    SerialPrint (str "data9 (VAL8): " ++ data 9 d ++ str ", data10 (VAL9): " ++ data 10 d ++
                 str ", data11 (VAL10): " ++ data 11 d ++ [newline]);
    SerialPrint (str "data12 (VAL11): " ++ data 12 d ++ str ", data13 (VAL12): " ++ data 13 d ++
                 str ", data14 (VAL13): " ++ data 14 d ++ [backslash] ++ str "n") ].

(** The split of one received line into the global buffers. *)
Definition parse (receivedBuffer : cstring) (d : buffers) : Z * buffers :=
  sscanf (c_str receivedBuffer) frame_format d.

(** One pass of [loop]: [rx] is what the serial port delivers before the
    read times out.  Returns the buffers, the unread bytes and the effects. *)
Definition loop (net : network) (d : buffers) (rx : cstring)
  : option (buffers * cstring * list event) :=
  match rx with
  | [] => Some (d, rx, [])
  | _ :: _ =>
      let (receivedBuffer, rest) := readBytesUntil newline 500 rx in
      let (numParsed, d') := parse receivedBuffer d in
      match sendData net d' with
      | None => None
      | Some sent =>
          Some (d', rest, parse_report (c_str receivedBuffer) numParsed d' ++ sent ++ [Delay 100])
      end
  end.

(** *** Vocabulary of the statements about the Forwarding Node *)

(** The bodies of the POST requests in an effect log, with their URLs. *)
Fixpoint posts (es : list event) : list (cstring * cstring) :=
  match es with
  | [] => []
  | HttpPost url body :: es' => (url, body) :: posts es'
  | _ :: es' => posts es'
  end.

(** The POST requests of one pass of [loop] over the serial input [rx];
    [None] when the pass has no defined result. *)
Definition posted (net : network) (d : buffers) (rx : cstring)
  : option (list (cstring * cstring)) :=
  option_map (fun r => posts (snd r)) (loop net d rx).

(** The format with [n] delimited fields before the last one. *)
Definition fields_format (n : nat) : list directive :=
  List.concat (repeat [Scanset 29 amp; Literal amp] n) ++ [Word 29].

(** The fields that the split of a received line converts, in order. *)
Definition parsed_fields (receivedBuffer : cstring) : list cstring :=
  fst (scan frame_format (c_str receivedBuffer)).

(** Number of conversions of a format. *)
Fixpoint conversions (fmt : list directive) : nat :=
  match fmt with
  | [] => 0
  | Literal _ :: fmt' => conversions fmt'
  | _ :: fmt' => S (conversions fmt')
  end.

(** The buffers after a complete frame has been received. *)
Definition after_full_frame : buffers :=
  snd (parse (str "ADU_TEXT&10&200&1500&25&60&77&26&79&OFF&ON&OFF&BUZ&RSV") init).

(** Number of calls of [WiFi.begin] in an effect log. *)
Fixpoint wifi_begins (es : list event) : nat :=
  match es with
  | [] => 0
  | WiFiBegin :: es' => S (wifi_begins es')
  | _ :: es' => wifi_begins es'
  end.

(** Total time spent in [delay], in milliseconds. *)
Fixpoint delayed (es : list event) : Z :=
  match es with
  | [] => 0
  | Delay ms :: es' => ms + delayed es'
  | _ :: es' => delayed es'
  end.

(** Number of characters of the thirteen buffers that go into the JSON
    text. *)
Definition payload_chars (d : buffers) : nat :=
  (List.length (data 1 d) + List.length (data 2 d) + List.length (data 3 d) +
   List.length (data 4 d) + List.length (data 5 d) + List.length (data 6 d) +
   List.length (data 7 d) + List.length (data 8 d) + List.length (data 9 d) +
   List.length (data 10 d) + List.length (data 11 d) + List.length (data 12 d) +
   List.length (data 13 d))%nat.

(** Fourteen buffers, each holding at most 29 characters before its NUL. *)
Definition buffers_ok (d : buffers) : Prop :=
  List.length d = 14%nat /\ Forall (fun f => (List.length f <= 29)%nat) d.

(** The widths of a format are at most 29. *)
Definition widths_ok (fmt : list directive) : bool :=
  forallb (fun dir => match dir with
                      | Scanset w _ | Word w => (w <=? 29)%nat
                      | Literal _ => true
                      end) fmt.

(** A character that [%s] reads: neither white space nor NUL. *)
Definition wordchar (c : ascii) : bool := negb (isspace c) && negb (Ascii.eqb c nul).

(** A last field that [%29s] reads back whole; it may contain the
    delimiter. *)
Definition word_ok (f : cstring) : bool :=
  match f with
  | [] => false
  | _ :: _ => (List.length f <=? 29)%nat && forallb wordchar f
  end.

(** A character that may occur inside a field: not the delimiter, not
    white space, not NUL. *)
Definition plain (c : ascii) : bool :=
  negb (Ascii.eqb c amp) && negb (isspace c) && negb (Ascii.eqb c nul).

(** A field that the split reads back whole: non-empty, at most 29 plain
    characters. *)
Definition field_ok (f : cstring) : bool :=
  match f with
  | [] => false
  | _ :: _ => (List.length f <=? 29)%nat && forallb plain f
  end.

(** A network on which every request goes through. *)
Definition online : network := mkNetwork true true 200 (str "OK") [].

End Esp.

(** ** An executable instance of the floating-point interface

    Exact rational arithmetic with one extra not-a-number value; the heat
    index is Steadman's first-order formula.  It serves to run the model
    on concrete inputs. *)

Module ExactFloat.

Definition trunc (x : Q) : Z := Z.quot (Qnum x) (Z.pos (Qden x)).

Definition lift2 (op : Q -> Q -> Q) (a b : option Q) : option Q :=
  match a, b with
  | Some x, Some y => Some (op x y)
  | _, _ => None
  end.

Definition div (a b : option Q) : option Q :=
  match a, b with
  | Some x, Some y => if Qeq_bool y 0 then None else Some (Qred (x / y))
  | _, _ => None
  end.

Definition heat_index (t h : option Q) (isFahrenheit : bool) : option Q :=
  match t, h with
  | Some t, Some h =>
      let tf := if isFahrenheit then t else t * (9 # 5) + 32 in
      let hi := (1 # 2) * (tf + 61 + (tf - 68) * (6 # 5) + h * (47 # 500)) in
      Some (Qred (if isFahrenheit then hi else (hi - 32) * (5 # 9)))
  | _, _ => None
  end%Q.

#[export] Instance ops : FloatOps := {|
  float := option Q;
  isnan := fun x => match x with None => true | Some _ => false end;
  of_uint := fun z => Some (inject_Z z);
  to_uint := fun x => match x with Some q => trunc q | None => 0 end;
  fdiv := div;
  fmul := lift2 (fun x y => Qred (x * y));
  lit_3_4 := Some (34 # 10)%Q;
  lit_42_8 := Some (428 # 10)%Q;
  lit_1000 := Some (1000 # 1)%Q;
  computeHeatIndex := heat_index
|}.

Definition NaN : option Q := None.

(** One pass of [loop] at time [t] with a healthy sensor: 25 C, 60 %, 77 F. *)
Definition window (t adc_current adc_voltage : Z) : Nano.inputs :=
  Nano.mkInputs t t adc_current adc_voltage
    (Some (60 # 1)%Q) (Some (25 # 1)%Q) (Some (77 # 1)%Q).

(** The same with a failed humidity reading. *)
Definition window_nan (t adc_current adc_voltage : Z) : Nano.inputs :=
  Nano.mkInputs t t adc_current adc_voltage NaN (Some (25 # 1)%Q) (Some (77 # 1)%Q).

(** The sketch after [setup] at time 0. *)
Definition booted : Nano.state := fst (Nano.setup 0 Nano.init).

(** A steady 1 kHz pulse train: 10000 edges in each 10 s window, up to
    the second window boundary. *)
Definition steady_1kHz : Nano.state :=
  Nano.edges (Z.to_nat 10000)
    (fst (Nano.loop (window 20000 0 0) (Nano.edges (Z.to_nat 10000) booted))).

End ExactFloat.

(** * Properties of the Sensing Node *)

Import Nano.

Ltac run_proc :=
  cbv beta zeta delta [Cal_RPM RelayOperation send_frame update_yar seq branch when
    assign emit skip digitalWrite detachInterrupt attachInterrupt] in *.

(** ** The RPM estimator *)

Lemma s16_small z : -32768 <= z < 32768 -> s16 z = z.
Proof.
  intros H. unfold s16. rewrite Z.mod_small; lia.
Qed.

Lemma Cal_RPM_prpm s :
  prpm (fst (Cal_RPM s)) = next_prpm (pulseCount s) (prpm s).
Proof. reflexivity. Qed.

Lemma Cal_RPM_Sensor3_Val s :
  Sensor3_Val (fst (Cal_RPM s)) = u16 (next_prpm (pulseCount s) (prpm s)).
Proof. reflexivity. Qed.

Lemma Cal_RPM_resets_count s : pulseCount (fst (Cal_RPM s)) = 0.
Proof. reflexivity. Qed.

(** Between two window boundaries the counter is driven by the edge
    handler alone. *)

Lemma s16_succ x : s16 (s16 x + 1) = s16 (x + 1).
Proof.
  unfold s16.
  replace ((x + 32768) mod 65536 - 32768 + 1 + 32768)
    with ((x + 32768) mod 65536 + 1) by lia.
  rewrite Zplus_mod_idemp_l. f_equal. f_equal. lia.
Qed.

(** [n] runs of the edge handler add [n] to the counter, modulo the 16-bit
    range of [int]. *)
Lemma edges_pulseCount n s :
  pulseCount (edges n s) = s16 (pulseCount s + Z.of_nat n) \/
  (n = 0%nat /\ pulseCount (edges n s) = pulseCount s).
Proof.
  induction n as [|n IH].
  - right. split; reflexivity.
  - left. change (pulseCount (edges (S n) s)) with (s16 (pulseCount (edges n s) + 1)).
    destruct IH as [-> | [-> ->]].
    + rewrite s16_succ. f_equal. lia.
    + f_equal.
Qed.

(** While the counter stays below 32768 it is exact. *)
Lemma edges_exact n s :
  pulseCount s = 0 -> Z.of_nat n < 32768 -> pulseCount (edges n s) = Z.of_nat n.
Proof.
  intros H0 Hn. destruct (edges_pulseCount n s) as [-> | [-> ->]].
  - rewrite H0. apply s16_small. lia.
  - rewrite H0. reflexivity.
Qed.

(** C6: when the pulse count read at the window boundary is 0, [Cal_RPM]
    sets the smoothed estimate [prpm] and the published [Sensor3_Val] to
    exactly 0, whatever the previous smoothed value was. *)
Theorem Cal_RPM_zero_count s :
  pulseCount s = 0 ->
  prpm (fst (Cal_RPM s)) = 0 /\ Sensor3_Val (fst (Cal_RPM s)) = 0.
Proof.
  intros H.
  rewrite Cal_RPM_prpm, Cal_RPM_Sensor3_Val, H.
  split; reflexivity.
Qed.

Lemma Cal_RPM_zero_count_witness :
  let s := set_prpm 1500 ExactFloat.booted in
  pulseCount s = 0 /\ prpm s = 1500 /\
  prpm (fst (Cal_RPM s)) = 0 /\ Sensor3_Val (fst (Cal_RPM s)) = 0.
Proof.
  split; [reflexivity|]. split; [reflexivity|].
  apply (Cal_RPM_zero_count (set_prpm 1500 ExactFloat.booted)). reflexivity.
Defined.

(** Where no 16-bit operation wraps, the new estimate lies between the
    previous one and the raw one. *)
Lemma next_prpm_between pc p :
  pc <> 0 ->
  is_s16 (pc * 3) -> is_s16 (p + pc * 3) ->
  between p (pc * 3) (next_prpm pc p).
Proof.
  unfold is_s16, between, next_prpm. intros Hpc H3 Hsum.
  destruct (Z.eqb_spec pc 0) as [|_]; [contradiction|].
  destruct (Z.eqb_spec p 0) as [->|Hp].
  - rewrite s16_small by lia. lia.
  - rewrite (s16_small (pc * 3)) by lia. rewrite s16_small by lia.
    pose proof (Z.quot_rem (p + pc * 3) 2 ltac:(lia)) as E.
    pose proof (Z.rem_bound_abs (p + pc * 3) 2 ltac:(lia)) as B.
    destruct (Z_le_gt_dec 0 (p + pc * 3)) as [Hs|Hs].
    + pose proof (Z.rem_nonneg (p + pc * 3) 2 ltac:(lia) Hs). lia.
    + pose proof (Z.rem_nonpos (p + pc * 3) 2 ltac:(lia) ltac:(lia)). lia.
Qed.

Lemma edges_reachable `{FloatOps} n s :
  reachable s -> irq_attached s = true ->
  reachable (edges n s) /\ irq_attached (edges n s) = true.
Proof.
  intros Hr Hi. induction n as [|n [IHr IHi]]; simpl.
  - split; assumption.
  - split; [apply reach_edge; assumption | exact IHi].
Qed.

Lemma steady_1kHz_reachable : reachable (F := ExactFloat.ops) ExactFloat.steady_1kHz.
Proof.
  unfold ExactFloat.steady_1kHz.
  apply edges_reachable.
  - apply reach_loop. apply edges_reachable.
    + apply (reach_setup 0).
    + reflexivity.
  - vm_compute. reflexivity.
Qed.

(** C7: in a state reached by a steady 1 kHz pulse train the previous
    estimate and the raw estimate are both 30000, and the 16-bit sum wraps:
    [Cal_RPM] stores -2768 (published as 62768), which is not between the
    two. *)
Theorem Cal_RPM_average_wraps :
  prpm ExactFloat.steady_1kHz = 30000 /\ pulseCount ExactFloat.steady_1kHz * 3 = 30000 /\
  prpm (fst (Cal_RPM ExactFloat.steady_1kHz)) = -2768 /\
  Sensor3_Val (fst (Cal_RPM ExactFloat.steady_1kHz)) = 62768 /\
  ~ between (prpm ExactFloat.steady_1kHz) (pulseCount ExactFloat.steady_1kHz * 3)
      (prpm (fst (Cal_RPM ExactFloat.steady_1kHz))).
Proof.
  assert (Hp : prpm ExactFloat.steady_1kHz = 30000) by (vm_compute; reflexivity).
  assert (Hc : pulseCount ExactFloat.steady_1kHz = 10000) by (vm_compute; reflexivity).
  rewrite Cal_RPM_prpm, Cal_RPM_Sensor3_Val, Hp, Hc.
  repeat split; try reflexivity.
  unfold between. vm_compute. intros [H _]. apply H. reflexivity.
Qed.

(** ** Relay control *)

Ltac split_compare :=
  repeat match goal with
    | |- context [?a <=? ?b] => destruct (Z.leb_spec a b); simpl
    | |- context [?a <? ?b] => destruct (Z.ltb_spec a b); simpl
    | |- context [?a =? ?b] => destruct (Z.eqb_spec a b); simpl
    end.

Lemma fst_seq (p r : proc) s : fst ((p ;; r) s) = fst (r (fst (p s))).
Proof. reflexivity. Qed.

Lemma snd_seq (p r : proc) s :
  snd ((p ;; r) s) = snd (p s) ++ snd (r (fst (p s))).
Proof. reflexivity. Qed.

Lemma writes_to_app p es es' :
  writes_to p (es ++ es') = (writes_to p es + writes_to p es')%nat.
Proof. unfold writes_to. rewrite filter_app, length_app. reflexivity. Qed.

(** [RelayOperation] is the same block three times, for the voltage, the
    current and the temperature channel in this order. *)
Lemma RelayOperation_blocks :
  RelayOperation = (relay_block RLY2 ;; relay_block RLY1 ;; relay_block RLY3).
Proof. reflexivity. Qed.

Ltac block_cases s p :=
  destruct s, p; cbv beta zeta delta [relay_block set_flag] in *; run_proc;
  unfold triggered, flag, out, sample, bound, CURRENT_NORMAL, VOLTAGE_NORMAL, DHT11_NORMAL in *;
  simpl in *.

(** A block leaves the samples alone and touches only its own channel. *)
Lemma relay_block_sample r p s : sample p (fst (relay_block r s)) = sample p s.
Proof. block_cases s r; destruct p; split_compare; reflexivity. Qed.

Lemma relay_block_other r p s :
  relay_pin_eqb p r = false ->
  flag p (fst (relay_block r s)) = flag p s /\
  out p (fst (relay_block r s)) = out p s /\
  writes_to p (snd (relay_block r s)) = 0%nat.
Proof.
  intros Hne. block_cases s r; destruct p; try discriminate Hne;
    split_compare; repeat split; reflexivity.
Qed.

(** On its own channel a block makes the flag follow the predicate, and
    the pin too when it carried the level of the flag before. *)
Lemma relay_block_own p s :
  (exists b, flag p s = flag_of b /\ out p s = level_of b) ->
  flag p (fst (relay_block p s)) = flag_of (triggered p s) /\
  out p (fst (relay_block p s)) = level_of (triggered p s) /\
  (flag_of (triggered p s) = flag p s -> writes_to p (snd (relay_block p s)) = 0%nat) /\
  (flag_of (triggered p s) <> flag p s -> writes_to p (snd (relay_block p s)) = 1%nat).
Proof.
  intros [b [Hf Ho]].
  block_cases s p; subst; destruct b; simpl; split_compare;
    repeat split; intros; try reflexivity; try lia; try discriminate; try congruence.
Qed.

Lemma triggered_after_block r p s : triggered p (fst (relay_block r s)) = triggered p s.
Proof. unfold triggered. rewrite relay_block_sample. reflexivity. Qed.

(** What [RelayOperation] does to one channel. *)
Lemma RelayOperation_channel s p :
  relay_inv s ->
  flag p (fst (RelayOperation s)) = flag_of (triggered p s) /\
  out p (fst (RelayOperation s)) = level_of (triggered p s) /\
  (flag_of (triggered p s) = flag p s ->
   writes_to p (snd (RelayOperation s)) = 0%nat) /\
  (flag_of (triggered p s) <> flag p s ->
   writes_to p (snd (RelayOperation s)) = 1%nat).
Proof.
  intros Hinv. rewrite RelayOperation_blocks.
  rewrite !fst_seq, !snd_seq, !writes_to_app.
  assert (T1 : forall q, triggered q (fst (relay_block RLY2 s)) = triggered q s)
    by (intros; apply triggered_after_block).
  remember (fst (relay_block RLY2 s)) as s1 eqn:E1.
  assert (T2 : forall q, triggered q (fst (relay_block RLY1 s1)) = triggered q s)
    by (intros; rewrite triggered_after_block; apply T1).
  remember (fst (relay_block RLY1 s1)) as s2 eqn:E2.
  pose proof (relay_block_other RLY2 RLY1 s eq_refl) as A21.
  pose proof (relay_block_other RLY2 RLY3 s eq_refl) as A23.
  pose proof (relay_block_other RLY1 RLY2 s1 eq_refl) as A12.
  pose proof (relay_block_other RLY1 RLY3 s1 eq_refl) as A13.
  pose proof (relay_block_other RLY3 RLY1 s2 eq_refl) as A31.
  pose proof (relay_block_other RLY3 RLY2 s2 eq_refl) as A32.
  rewrite <- E1 in A21, A23. rewrite <- E2 in A12, A13.
  destruct A21 as (F21 & O21 & W21), A23 as (F23 & O23 & W23),
    A12 as (F12 & O12 & W12), A13 as (F13 & O13 & W13),
    A31 as (F31 & O31 & W31), A32 as (F32 & O32 & W32).
  destruct p.
  - (* current: the second block *)
    destruct (relay_block_own RLY1 s1) as (F & O & W0 & W1).
    { rewrite F21, O21. apply Hinv. }
    rewrite <- E2, T1, F21 in *.
    rewrite F31, O31, W21, W31, F, O.
    repeat split; intros; [rewrite W0 | rewrite W1]; auto.
  - (* voltage: the first block *)
    destruct (relay_block_own RLY2 s (Hinv RLY2)) as (F & O & W0 & W1).
    rewrite <- E1 in *.
    rewrite F32, O32, F12, O12, F, O, W12, W32.
    repeat split; intros; [rewrite W0 | rewrite W1]; auto; lia.
  - (* temperature: the third block *)
    destruct (relay_block_own RLY3 s2) as (F & O & W0 & W1).
    { rewrite F13, O13, F23, O23. apply Hinv. }
    rewrite E2, T2, <- E2, F13, F23 in *.
    rewrite W23, W13, F, O.
    repeat split; intros; [rewrite W0 | rewrite W1]; auto.
Qed.

(** C3: in a state whose pins carry the levels of their flags (as [setup]
    leaves them and every later step keeps them), after [RelayOperation]
    the flag of each channel and the level of its pin both stand for
    [sample > bound], and when that predicate already equals the prior
    flag the call performs no [digitalWrite] on the channel's pin. *)
Theorem RelayOperation_tracks_threshold s p :
  relay_inv s ->
  flag p (fst (RelayOperation s)) = flag_of (triggered p s) /\
  out p (fst (RelayOperation s)) = level_of (triggered p s) /\
  (flag_of (triggered p s) = flag p s ->
   writes_to p (snd (RelayOperation s)) = 0%nat).
Proof.
  intros Hinv.
  destruct (RelayOperation_channel s p Hinv) as (F & O & W & _).
  repeat split; assumption.
Qed.

Lemma RelayOperation_tracks_threshold_witness :
  let s := set_Sensor2_Val 21028 ExactFloat.booted in
  relay_inv s /\
  flag RLY2 (fst (RelayOperation s)) = 1 /\
  out RLY2 (fst (RelayOperation s)) = LOW /\
  (flag_of (triggered RLY2 s) = flag RLY2 s ->
   writes_to RLY2 (snd (RelayOperation s)) = 0%nat).
Proof.
  split.
  - intros p. exists false. destruct p; split; reflexivity.
  - apply (RelayOperation_tracks_threshold (set_Sensor2_Val 21028 ExactFloat.booted) RLY2).
    intros p. exists false. destruct p; split; reflexivity.
Defined.

(** A transition costs exactly one write on the channel's pin. *)
Lemma RelayOperation_transition_writes_once s p :
  relay_inv s ->
  flag_of (triggered p s) <> flag p s ->
  writes_to p (snd (RelayOperation s)) = 1%nat.
Proof.
  intros Hinv. apply (RelayOperation_channel s p Hinv).
Qed.

Lemma RelayOperation_relay_inv s : relay_inv s -> relay_inv (fst (RelayOperation s)).
Proof.
  intros Hinv p. exists (triggered p s).
  destruct (RelayOperation_channel s p Hinv) as (Hf & Ho & _).
  split; assumption.
Qed.

Lemma setup_relay_inv millis : relay_inv (fst (setup millis Nano.init)).
Proof. intros p. exists false. destruct p; split; reflexivity. Qed.

Lemma countPulse_relay_inv s : relay_inv s -> relay_inv (countPulse s).
Proof. intros H p. destruct (H p) as [b Hb]. exists b. destruct p; exact Hb. Qed.

Lemma same_relays_inv s s' : same_relays s s' -> relay_inv s -> relay_inv s'.
Proof.
  intros Hs Hinv p. destruct (Hs p) as [-> ->]. apply Hinv.
Qed.

Lemma Cal_RPM_same_relays s : same_relays s (fst (Cal_RPM s)).
Proof. intros p. destruct p; split; reflexivity. Qed.

Lemma send_frame_same_relays s : same_relays s (fst (send_frame s)).
Proof.
  intros p. run_proc. simpl.
  destruct p; repeat match goal with
    | |- context [if ?c then _ else _] => destruct c; simpl
    end; split; reflexivity.
Qed.

Section SamplingFacts.
Context {F : FloatOps}.

Lemma DHT11_read_same_relays i s : same_relays s (fst (DHT11_read i s)).
Proof.
  intros p. unfold DHT11_read.
  destruct (isnan (dht_humidity i) || isnan (dht_temperature i) || isnan (dht_fahrenheit i));
    destruct p; split; reflexivity.
Qed.

Lemma ReadSensor_values_same_relays i s : same_relays s (fst (ReadSensor_values i s)).
Proof.
  intros p. unfold ReadSensor_values. rewrite !fst_seq.
  match goal with
  | |- context [DHT11_read i ?s0] =>
      destruct (DHT11_read_same_relays i s0 p) as [-> ->]
  end.
  run_proc. simpl.
  destruct p; repeat match goal with
    | |- context [if ?c then _ else _] => destruct c; simpl
    end; split; reflexivity.
Qed.

Lemma loop_relay_inv i s : relay_inv s -> relay_inv (fst (loop i s)).
Proof.
  intros Hinv. unfold loop, when, branch, skip.
  destruct (MEASUREMENT_DURATION_MS <=? u32 (millis_check i - startTime s)); [|exact Hinv].
  rewrite !fst_seq. simpl.
  apply (same_relays_inv _ _ (send_frame_same_relays _)).
  apply RelayOperation_relay_inv.
  apply (same_relays_inv _ _ (ReadSensor_values_same_relays i _)).
  apply (same_relays_inv _ _ (Cal_RPM_same_relays s)).
  exact Hinv.
Qed.

(** Every state the sketch reaches has its pins at the levels of its
    flags. *)
Lemma reachable_relay_inv s : reachable s -> relay_inv s.
Proof.
  induction 1.
  - apply setup_relay_inv.
  - apply countPulse_relay_inv. assumption.
  - apply loop_relay_inv. assumption.
Qed.

End SamplingFacts.

Lemma relay_inv_flags_ok s : relay_inv s -> flags_ok s.
Proof.
  intros H p. destruct (H p) as [[|] [-> _]]; [right | left]; reflexivity.
Qed.

(** ** Status tokens of the frame *)

(** C4, as stated, fails: with all three flags OFF the aggregate field of
    the frame is the token NOR, and with a flag ON it is BUZ. *)
Lemma aggregate_token_is_NOR_not_NORMAL :
  all_off ExactFloat.booted /\
  aggregate_field (fst (send_frame ExactFloat.booted)) = str "NOR" /\
  aggregate_field (fst (send_frame ExactFloat.booted)) <> str "NORMAL" /\
  ~ all_off (set_RLY2_STATUS 1 ExactFloat.booted) /\
  aggregate_field (fst (send_frame (set_RLY2_STATUS 1 ExactFloat.booted))) = str "BUZ" /\
  aggregate_field (fst (send_frame (set_RLY2_STATUS 1 ExactFloat.booted))) <> str "ALERT".
Proof.
  repeat split; try reflexivity; try discriminate.
  intros (_ & H & _). discriminate H.
Qed.

(** C4, amended: with every flag 0 or 1, the aggregate field of the frame
    that is sent is NOR exactly when all three flags are 0 and BUZ
    otherwise, and each relay field is OFF when its flag is 0 and ON when
    it is 1. *)
Theorem aggregate_status_NOR_BUZ s :
  flags_ok s ->
  snd (send_frame s) = [EspPrint (frame (fst (send_frame s)))] /\
  (aggregate_field (fst (send_frame s)) = str "NOR" <-> all_off s) /\
  (aggregate_field (fst (send_frame s)) = str "BUZ" <-> ~ all_off s) /\
  (forall p, (relay_field p (fst (send_frame s)) = str "OFF" <-> flag p s = 0) /\
             (relay_field p (fst (send_frame s)) = str "ON" <-> flag p s = 1)).
Proof.
  intros Hok. unfold all_off.
  destruct (Hok RLY1) as [H1|H1], (Hok RLY2) as [H2|H2], (Hok RLY3) as [H3|H3];
    destruct s; simpl in H1, H2, H3; subst;
    (split; [reflexivity|]);
    (split; [|split]);
    try (intros p; destruct p);
    vm_compute; repeat split; intros; try reflexivity; try discriminate;
    try tauto;
    repeat match goal with
      | H : _ /\ _ |- _ => destruct H
      | H : ~ _ |- _ => exfalso; apply H; repeat split
      end; try discriminate; try reflexivity.
Qed.

Lemma aggregate_status_NOR_BUZ_witness :
  flags_ok (set_RLY2_STATUS 1 ExactFloat.booted) /\
  aggregate_field (fst (send_frame (set_RLY2_STATUS 1 ExactFloat.booted))) = str "BUZ".
Proof.
  assert (Hok : flags_ok (set_RLY2_STATUS 1 ExactFloat.booted)).
  { intros p. destruct p; [left | right | left]; reflexivity. }
  split; [exact Hok|].
  destruct (aggregate_status_NOR_BUZ (set_RLY2_STATUS 1 ExactFloat.booted) Hok)
    as (_ & _ & [_ Hbuz] & _).
  apply Hbuz. intros (_ & H & _). discriminate H.
Defined.

(** ** The environmental sensor *)

Section DhtFacts.
Context {F : FloatOps}.

(** C9: when one of the three DHT readings is not-a-number, [DHT11_read]
    changes nothing in the state and logs the failure; in particular
    [Sensor4_Val] to [Sensor8_Val] keep the values of the previous window,
    also at the end of [ReadSensor_values]. *)
Theorem DHT11_read_nan_keeps_sample i s :
  isnan (dht_humidity i) || isnan (dht_temperature i) || isnan (dht_fahrenheit i) = true ->
  DHT11_read i s = (s, [SerialPrintln (str "Failed to read from DHT sensor!")]) /\
  env_fields (fst (DHT11_read i s)) = env_fields s /\
  env_fields (fst (ReadSensor_values i s)) = env_fields s.
Proof.
  intros Hnan.
  assert (E : forall s0, DHT11_read i s0 =
                         (s0, [SerialPrintln (str "Failed to read from DHT sensor!")])).
  { intros s0. unfold DHT11_read. rewrite Hnan. reflexivity. }
  split; [apply E|]. split; [rewrite E; reflexivity|].
  unfold ReadSensor_values. rewrite !fst_seq, E. simpl.
  run_proc. simpl.
  repeat match goal with
    | |- context [if ?c then _ else _] => destruct c; simpl
    end; reflexivity.
Qed.

End DhtFacts.

Lemma DHT11_read_nan_keeps_sample_witness :
  let i := ExactFloat.window_nan 20000 512 300 in
  let s := set_dht_fields 25 60 77 26 79 ExactFloat.booted in
  env_fields s = (25, 60, 77, 26, 79) /\
  DHT11_read i s = (s, [SerialPrintln (str "Failed to read from DHT sensor!")]) /\
  env_fields (fst (DHT11_read i s)) = env_fields s /\
  env_fields (fst (ReadSensor_values i s)) = env_fields s.
Proof.
  split; [reflexivity|].
  apply (DHT11_read_nan_keeps_sample (ExactFloat.window_nan 20000 512 300)
           (set_dht_fields 25 60 77 26 79 ExactFloat.booted)).
  reflexivity.
Defined.

(** * Properties of the Forwarding Node *)

Import Esp.

(** ** The field split *)

Lemma span_stops p w f c rest :
  forallb p f = true -> (List.length f <= w)%nat -> p c = false ->
  span p w (f ++ c :: rest) = (f, c :: rest).
Proof.
  revert w. induction f as [|a f IH]; intros w Hall Hlen Hc; simpl in *.
  - destruct w; simpl; [reflexivity | rewrite Hc; reflexivity].
  - apply andb_prop in Hall as [Ha Hall].
    destruct w as [|w]; [lia|]. simpl. rewrite Ha, IH by (auto; lia). reflexivity.
Qed.

Lemma span_whole p w f :
  forallb p f = true -> (List.length f <= w)%nat -> span p w f = (f, []).
Proof.
  revert w. induction f as [|a f IH]; intros w Hall Hlen; simpl in *.
  - destruct w; reflexivity.
  - apply andb_prop in Hall as [Ha Hall].
    destruct w as [|w]; [lia|]. simpl. rewrite Ha, IH by (auto; lia). reflexivity.
Qed.

Lemma plain_not_amp c : plain c = true -> negb (Ascii.eqb c amp) = true.
Proof. unfold plain. intros H. apply andb_prop in H as [H _]. apply andb_prop in H as [H _]. exact H. Qed.

Lemma plain_not_space c : plain c = true -> negb (isspace c) = true.
Proof. unfold plain. intros H. apply andb_prop in H as [H _]. apply andb_prop in H as [_ H]. exact H. Qed.

Lemma plain_not_nul c : plain c = true -> negb (Ascii.eqb c nul) = true.
Proof. unfold plain. intros H. apply andb_prop in H as [_ H]. exact H. Qed.

Lemma forallb_weaken (p r : ascii -> bool) l :
  (forall c, p c = true -> r c = true) -> forallb p l = true -> forallb r l = true.
Proof.
  intros Hpr. induction l as [|a l IH]; simpl; [reflexivity|].
  intros H. apply andb_prop in H as [Ha Hl]. rewrite (Hpr _ Ha), (IH Hl). reflexivity.
Qed.

Lemma field_ok_inv f :
  field_ok f = true ->
  f <> [] /\ (List.length f <= 29)%nat /\ forallb plain f = true.
Proof.
  destruct f as [|c f]; [discriminate|]. unfold field_ok. intros H.
  apply andb_prop in H as [Hlen Hall]. apply Nat.leb_le in Hlen.
  repeat split; [discriminate | exact Hlen | exact Hall].
Qed.

(** A well-formed field followed by the delimiter is read back whole. *)
Lemma scan_field f fmt rest :
  field_ok f = true ->
  scan (Scanset 29 amp :: Literal amp :: fmt) (f ++ amp :: rest) =
  (f :: fst (scan fmt rest), snd (scan fmt rest)).
Proof.
  intros Hok. destruct (field_ok_inv f Hok) as (Hne & Hlen & Hall).
  destruct f as [|c f]; [contradiction|].
  cbn [scan app].
  change (c :: f ++ amp :: rest) with ((c :: f) ++ amp :: rest).
  rewrite span_stops; try assumption.
  - cbn [scan]. rewrite Ascii.eqb_refl. destruct (scan fmt rest). reflexivity.
  - apply forallb_weaken with (p := plain); [apply plain_not_amp | exact Hall].
  - rewrite Ascii.eqb_refl. reflexivity.
Qed.

(** A well-formed last field is read back whole by [%29s]. *)
Lemma scan_last_field f :
  field_ok f = true -> scan [Word 29] f = ([f], false).
Proof.
  intros Hok. destruct (field_ok_inv f Hok) as (Hne & Hlen & Hall).
  destruct f as [|c f]; [contradiction|].
  assert (Hc : isspace c = false).
  { simpl in Hall. apply andb_prop in Hall as [Hc _].
    apply plain_not_space in Hc. destruct (isspace c); [discriminate | reflexivity]. }
  cbn [scan skip_space]. rewrite Hc.
  rewrite span_whole; try assumption.
  - reflexivity.
  - apply forallb_weaken with (p := plain); [apply plain_not_space | exact Hall].
Qed.

Lemma strcat_fields_cons f g fs :
  strcat_fields (f :: g :: fs) = f ++ amp :: strcat_fields (g :: fs).
Proof. reflexivity. Qed.

Lemma scan_fields l :
  l <> [] -> forallb field_ok l = true ->
  scan (fields_format (pred (List.length l))) (strcat_fields l) = (l, false).
Proof.
  induction l as [|f l IH]; intros Hne Hall; [contradiction|].
  cbn [forallb] in Hall. apply andb_prop in Hall as [Hf Hall].
  destruct l as [|g l].
  - apply scan_last_field. exact Hf.
  - rewrite strcat_fields_cons.
    change (fields_format (pred (List.length (f :: g :: l))))
      with (Scanset 29 amp :: Literal amp :: fields_format (pred (List.length (g :: l)))).
    rewrite scan_field by exact Hf.
    rewrite IH by (discriminate || exact Hall). reflexivity.
Qed.

Lemma strcat_fields_chars (P : ascii -> bool) l :
  P amp = true -> (forall c, plain c = true -> P c = true) ->
  forallb field_ok l = true -> forallb P (strcat_fields l) = true.
Proof.
  intros Hamp Hplain. induction l as [|f l IH]; intros Hall; [reflexivity|].
  cbn [forallb] in Hall. apply andb_prop in Hall as [Hf Hall].
  destruct (field_ok_inv f Hf) as (_ & _ & Hpf).
  apply forallb_weaken with (r := P) in Hpf; [|exact Hplain].
  destruct l as [|g l]; [exact Hpf|].
  rewrite strcat_fields_cons, forallb_app. cbn [forallb].
  rewrite Hpf, Hamp, IH by exact Hall. reflexivity.
Qed.

Lemma strcat_fields_length l :
  forallb field_ok l = true ->
  (List.length (strcat_fields l) <= 30 * List.length l)%nat.
Proof.
  induction l as [|f l IH]; intros Hall; [simpl; lia|].
  cbn [forallb] in Hall. apply andb_prop in Hall as [Hf Hall].
  destruct (field_ok_inv f Hf) as (_ & Hlen & _).
  destruct l as [|g l]; [simpl; lia|].
  rewrite strcat_fields_cons, length_app. specialize (IH Hall).
  cbn [List.length] in *. lia.
Qed.

Lemma assign_args_all ms args :
  List.length ms = List.length args -> assign_args ms args = ms.
Proof.
  revert args. induction ms as [|m ms IH]; intros [|a args] H; simpl in *;
    try discriminate; try reflexivity.
  rewrite IH by lia. reflexivity.
Qed.

Lemma c_str_no_nul b :
  forallb (fun c => negb (Ascii.eqb c nul)) b = true -> c_str b = b.
Proof.
  induction b as [|c b IH]; simpl; [reflexivity|].
  intros H. apply andb_prop in H as [Hc Hb].
  destruct (Ascii.eqb c nul); [discriminate|]. rewrite IH by exact Hb. reflexivity.
Qed.

Lemma readBytesUntil_whole t n b :
  forallb (fun c => negb (Ascii.eqb c t)) b = true -> (List.length b <= n)%nat ->
  readBytesUntil t n b = (b, []).
Proof.
  revert n. induction b as [|c b IH]; intros n Hall Hlen; simpl in *.
  - destruct n; reflexivity.
  - apply andb_prop in Hall as [Hc Hb]. destruct n as [|n]; [lia|].
    simpl. destruct (Ascii.eqb c t); [discriminate|].
    rewrite IH by (auto; lia). reflexivity.
Qed.

(** ** Decimal fields *)

Lemma digit_plain d : 0 <= d < 10 -> plain (digit d) = true.
Proof.
  intros H.
  assert (E : d = 0 \/ d = 1 \/ d = 2 \/ d = 3 \/ d = 4 \/
              d = 5 \/ d = 6 \/ d = 7 \/ d = 8 \/ d = 9) by lia.
  repeat (destruct E as [->|E]; [reflexivity|]). subst d. reflexivity.
Qed.

Lemma utoa_plain fuel n acc :
  forallb plain acc = true -> forallb plain (utoa fuel n acc) = true.
Proof.
  revert n acc. induction fuel as [|fuel IH]; intros n acc Hacc; cbn [utoa]; [exact Hacc|].
  assert (Hd : forallb plain (digit (n mod 10) :: acc) = true).
  { cbn [forallb]. rewrite digit_plain, Hacc; [reflexivity|]. apply Z.mod_pos_bound. lia. }
  destruct (n / 10 =? 0); [exact Hd | apply IH; exact Hd].
Qed.

Lemma utoa_length fuel n acc :
  (List.length acc <= List.length (utoa fuel n acc) <= fuel + List.length acc)%nat.
Proof.
  revert n acc. induction fuel as [|fuel IH]; intros n acc; cbn [utoa]; [lia|].
  destruct (n / 10 =? 0); cbn [List.length]; [lia|].
  specialize (IH (n / 10) (digit (n mod 10) :: acc)). cbn [List.length] in IH. lia.
Qed.

Lemma utoa_grows fuel n acc :
  (List.length acc < List.length (utoa (S fuel) n acc))%nat.
Proof.
  cbn [utoa]. destruct (n / 10 =? 0); cbn [List.length]; [lia|].
  pose proof (utoa_length fuel (n / 10) (digit (n mod 10) :: acc)) as H.
  cbn [List.length] in H. lia.
Qed.

Lemma field_ok_intro f :
  (0 < List.length f <= 29)%nat -> forallb plain f = true -> field_ok f = true.
Proof.
  intros Hlen Hall. destruct f as [|c f]; [simpl in Hlen; lia|].
  unfold field_ok. rewrite Hall, andb_true_r. apply Nat.leb_le. lia.
Qed.

(** Every [%d] rendering is a well-formed field. *)
Lemma fmt_d_field_ok n : field_ok (fmt_d n) = true.
Proof.
  unfold fmt_d. destruct (n <? 0).
  - apply field_ok_intro.
    + pose proof (utoa_length 10 (- n) []) as H. cbn [List.length] in *. lia.
    + cbn [forallb]. rewrite utoa_plain; reflexivity.
  - apply field_ok_intro.
    + pose proof (utoa_length 10 n []) as H. pose proof (utoa_grows 9 n []) as G.
      cbn [List.length] in *. lia.
    + apply utoa_plain. reflexivity.
Qed.

Lemma relay_token_field_ok v : field_ok (relay_token v) = true.
Proof. unfold relay_token. destruct (v =? 0); reflexivity. Qed.

Lemma update_yar_tokens s :
  flags_ok s ->
  yar (fst (update_yar s)) = str "NOR" \/ yar (fst (update_yar s)) = str "BUZ".
Proof.
  intros Hok.
  destruct (Hok RLY1) as [H1|H1], (Hok RLY2) as [H2|H2], (Hok RLY3) as [H3|H3];
    destruct s; simpl in H1, H2, H3; subst; vm_compute; auto.
Qed.

(** With every flag 0 or 1, the fourteen fields of the frame that is sent
    are well formed. *)
Lemma frame_fields_ok s :
  flags_ok s ->
  forallb field_ok (str "ADU_TEXT" :: frame_fields (fst (send_frame s))) = true.
Proof.
  intros Hok.
  assert (Hy : field_ok (yar (fst (send_frame s))) = true).
  { change (fst (send_frame s)) with (fst (update_yar s)).
    destruct (update_yar_tokens s Hok) as [-> | ->]; reflexivity. }
  unfold frame_fields. cbn [forallb].
  rewrite Hy. unfold fmt_d_u16.
  rewrite !fmt_d_field_ok, !relay_token_field_ok. reflexivity.
Qed.

Lemma frame_as_fields s : frame s = strcat_fields (str "ADU_TEXT" :: frame_fields s).
Proof. reflexivity. Qed.

(** ** Encoding on the Sensing Node, decoding on the Forwarding Node *)



(** ** What is printed on the link *)

Lemma esp_output_app es es' : esp_output (es ++ es') = esp_output es ++ esp_output es'.
Proof.
  induction es as [|e es IH]; [reflexivity|].
  destruct e; simpl; rewrite IH; reflexivity.
Qed.

Lemma RelayOperation_esp_output s : esp_output (snd (RelayOperation s)) = [].
Proof.
  assert (B : forall p s0, esp_output (snd (relay_block p s0)) = []).
  { intros p s0. block_cases s0 p; split_compare; reflexivity. }
  rewrite RelayOperation_blocks, !snd_seq, !esp_output_app, !B. reflexivity.
Qed.

Lemma send_frame_esp_output s :
  esp_output (snd (send_frame s)) = [frame (fst (send_frame s))].
Proof.
  run_proc. simpl.
  repeat match goal with
    | |- context [if ?c then _ else _] => destruct c; simpl
    end; reflexivity.
Qed.

Section LinkFacts.
Context {F : FloatOps}.

Lemma ReadSensor_values_esp_output i s : esp_output (snd (ReadSensor_values i s)) = [].
Proof.
  unfold ReadSensor_values. rewrite !snd_seq, !esp_output_app.
  assert (D : forall s0, esp_output (snd (DHT11_read i s0)) = []).
  { intros s0. unfold DHT11_read.
    destruct (isnan (dht_humidity i) || isnan (dht_temperature i) || isnan (dht_fahrenheit i));
      reflexivity. }
  rewrite D. run_proc. simpl.
  repeat match goal with
    | |- context [if ?c then _ else _] => destruct c; simpl
    end; reflexivity.
Qed.

(** In every window, from every state with well-formed relay flags, the
    bytes printed on the link are one frame, and no byte of it is a
    newline. *)
Lemma window_prints_one_frame_without_newline i s :
  relay_inv s ->
  (MEASUREMENT_DURATION_MS <=? u32 (millis_check i - startTime s)) = true ->
  exists s', esp_output (snd (Nano.loop i s)) = [frame s'] /\
             forallb (fun c => negb (Ascii.eqb c newline)) (frame s') = true.
Proof.
  intros Hinv Hdue. unfold Nano.loop, when, branch. rewrite Hdue.
  set (s3 := fst ((Cal_RPM ;; ReadSensor_values i ;; RelayOperation) s)).
  assert (Hok : flags_ok s3).
  { apply relay_inv_flags_ok. unfold s3. rewrite !fst_seq.
    apply RelayOperation_relay_inv.
    apply (same_relays_inv _ _ (ReadSensor_values_same_relays i _)).
    apply (same_relays_inv _ _ (Cal_RPM_same_relays s)). exact Hinv. }
  exists (fst (send_frame s3)). split.
  - rewrite !snd_seq, !esp_output_app.
    rewrite ReadSensor_values_esp_output, RelayOperation_esp_output.
    rewrite send_frame_esp_output. reflexivity.
  - rewrite frame_as_fields.
    apply strcat_fields_chars; [reflexivity | | apply frame_fields_ok; exact Hok].
    intros c Hc. apply plain_not_space in Hc.
    destruct (Ascii.eqb_spec c newline) as [->|]; [discriminate Hc | reflexivity].
Qed.

End LinkFacts.

(** C8: a window evaluated on concrete readings (ADC 512 and 900, 25 C,
    60 %, 77 F) prints on the link exactly the frame text below; its last
    byte is the [V] of [RSV] and it contains no newline. *)
Theorem esp_frame_is_not_newline_terminated :
  esp_output (snd (Nano.loop (ExactFloat.window 20000 512 900) ExactFloat.booted)) =
    [str "ADU_TEXT&150&21028&0&25&60&77&25&77&OFF&ON&OFF&BUZ&RSV"] /\
  last (str "ADU_TEXT&150&21028&0&25&60&77&25&77&OFF&ON&OFF&BUZ&RSV") nul <> newline /\
  ~ In newline (str "ADU_TEXT&150&21028&0&25&60&77&25&77&OFF&ON&OFF&BUZ&RSV").
Proof.
  split; [vm_compute; reflexivity|]. split; [discriminate|].
  intros H.
  assert (E : existsb (Ascii.eqb newline)
                (str "ADU_TEXT&150&21028&0&25&60&77&25&77&OFF&ON&OFF&BUZ&RSV") = true).
  { apply existsb_exists. exists newline. split; [exact H | apply Ascii.eqb_refl]. }
  discriminate E.
Qed.

(** ** Forwarding of received lines *)

Lemma posts_app es es' : posts (es ++ es') = posts es ++ posts es'.
Proof.
  induction es as [|e es IH]; [reflexivity|].
  destruct e; simpl; rewrite IH; reflexivity.
Qed.

(** [loop] hands every line it reads to [sendData]: nothing between the
    split and the call looks at the number of fields or at their
    contents. *)
Lemma loop_calls_sendData net d c rx :
  Esp.loop net d (c :: rx) =
  let line := fst (readBytesUntil newline 500 (c :: rx)) in
  let rest := snd (readBytesUntil newline 500 (c :: rx)) in
  let d' := snd (parse line d) in
  match sendData net d' with
  | None => None
  | Some sent =>
      Some (d', rest,
            parse_report (c_str line) (fst (parse line d)) d' ++ sent ++ [Delay 100])
  end.
Proof.
  unfold Esp.loop.
  destruct (readBytesUntil newline 500 (c :: rx)) as [line rest].
  cbn [fst snd]. destruct (parse line d) as [n d']. reflexivity.
Qed.

(** With the network up and the JSON text within [jsonBuffer], [sendData]
    makes exactly one POST, of the JSON built from the buffers. *)
Lemma sendData_posts net d :
  wifi_connected net = true -> http_begin_ok net = true ->
  (List.length (json d) < 300)%nat ->
  exists sent, sendData net d = Some sent /\ posts sent = [(serverUrl, json d)].
Proof.
  intros Hw Hb Hfit. unfold sendData, sprintf_json. rewrite Hw, Hb.
  apply Nat.ltb_lt in Hfit. rewrite Hfit.
  eexists. split; [reflexivity|].
  destruct (0 <? httpResponseCode net); reflexivity.
Qed.

Lemma loop_posts net d c rx :
  wifi_connected net = true -> http_begin_ok net = true ->
  (List.length (json (snd (parse (fst (readBytesUntil newline 500 (c :: rx))) d))) < 300)%nat ->
  exists ev,
    Esp.loop net d (c :: rx) =
      Some (snd (parse (fst (readBytesUntil newline 500 (c :: rx))) d),
            snd (readBytesUntil newline 500 (c :: rx)), ev) /\
    posts ev = [(serverUrl, json (snd (parse (fst (readBytesUntil newline 500 (c :: rx))) d)))].
Proof.
  intros Hw Hb Hfit. rewrite loop_calls_sendData. cbv zeta.
  destruct (sendData_posts net _ Hw Hb Hfit) as (sent & -> & Hp).
  eexists. split; [reflexivity|].
  rewrite !posts_app, Hp. reflexivity.
Qed.

(** Without WiFi the line still reaches [sendData], which asks for a
    reconnection and posts nothing. *)
Lemma loop_offline net d c rx :
  wifi_connected net = false ->
  exists ev,
    Esp.loop net d (c :: rx) =
      Some (snd (parse (fst (readBytesUntil newline 500 (c :: rx))) d),
            snd (readBytesUntil newline 500 (c :: rx)), ev) /\
    posts ev = [] /\ In WiFiBegin ev.
Proof.
  intros Hw. rewrite loop_calls_sendData. cbv zeta.
  unfold sendData. rewrite Hw.
  eexists. split; [reflexivity|]. split.
  - rewrite !posts_app. reflexivity.
  - apply in_or_app. right. simpl. auto.
Qed.

(** C1, as stated, fails: a line with two fields and a wrong type tag, a
    line with an extra delimiter, and a line with an over-length field each
    reach [sendData] and are posted. *)
Lemma malformed_lines_are_posted :
  (fst (parse (str "XYZ&1") Esp.init) = 2 /\
   data 1 (snd (parse (str "XYZ&1") Esp.init)) = str "XYZ" /\
   posted Esp.online Esp.init (str "XYZ&1" ++ [newline]) =
     Some [(serverUrl, json (snd (parse (str "XYZ&1") Esp.init)))]) /\
  (let line := str "ADU_TEXT&10&200&1500&25&60&77&26&79&OFF&ON&OFF&BUZ&RSV&9" in
   data 14 (snd (parse line Esp.init)) = str "RSV&9" /\
   posted Esp.online Esp.init (line ++ [newline]) =
     Some [(serverUrl, json (snd (parse line Esp.init)))]) /\
  (let line := str "ADU_TEXT&123456789012345678901234567890&200" in
   fst (parse line Esp.init) = 2 /\
   data 2 (snd (parse line Esp.init)) = str "12345678901234567890123456789" /\
   posted Esp.online Esp.init (line ++ [newline]) =
     Some [(serverUrl, json (snd (parse line Esp.init)))]).
Proof.
  repeat split; vm_compute; reflexivity.
Qed.

(** C1, amended: for every line the Forwarding Node reads, whatever the
    number of fields, the first field or the field lengths, the line is
    split into the buffers and [sendData] runs; with WiFi connected, the
    HTTP connection opened and the JSON text within its 300-byte buffer,
    exactly one POST is made, of the JSON built from the buffers after the
    split. *)
Theorem every_line_is_posted net d c rx :
  wifi_connected net = true -> http_begin_ok net = true ->
  (List.length (json (snd (parse (fst (readBytesUntil newline 500 (c :: rx))) d))) < 300)%nat ->
  posted net d (c :: rx) =
    Some [(serverUrl, json (snd (parse (fst (readBytesUntil newline 500 (c :: rx))) d)))].
Proof.
  intros Hw Hb Hfit. unfold posted.
  destruct (loop_posts net d c rx Hw Hb Hfit) as (ev & -> & Hp).
  simpl. rewrite Hp. reflexivity.
Qed.

Lemma every_line_is_posted_witness :
  posted Esp.online Esp.init ("X"%char :: str "YZ&1") =
    Some [(serverUrl,
           json (snd (parse (fst (readBytesUntil newline 500 ("X"%char :: str "YZ&1"))) Esp.init)))].
Proof.
  apply (every_line_is_posted Esp.online Esp.init "X"%char (str "YZ&1")).
  - reflexivity.
  - reflexivity.
  - vm_compute. lia.
Defined.

(** ** Short lines *)


Lemma scan_conversions fmt inp :
  (List.length (fst (scan fmt inp)) <= conversions fmt)%nat.
Proof.
  revert inp. induction fmt as [|dir fmt IH]; intros inp; [simpl; lia|].
  destruct dir as [w x|c|w]; cbn [scan conversions].
  - destruct inp as [|a inp]; [simpl; lia|].
    destruct (span _ w (a :: inp)) as [[|b m] rest]; [simpl; lia|].
    specialize (IH rest). destruct (scan fmt rest). simpl in *. lia.
  - destruct inp as [|a inp]; [simpl; lia|].
    destruct (Ascii.eqb a c); [apply IH | simpl; lia].
  - destruct (skip_space inp) as [|a inp']; [simpl; lia|].
    destruct (span _ w (a :: inp')) as [m rest].
    specialize (IH rest). destruct (scan fmt rest). simpl in *. lia.
Qed.

Lemma parsed_fields_at_most_14 line : (List.length (parsed_fields line) <= 14)%nat.
Proof. apply (scan_conversions frame_format). Qed.





(** * Further properties of the Sensing Node *)

(** ** Invariants of the reachable states *)

Lemma u16_range z : is_u16 (u16 z).
Proof. unfold is_u16, u16. apply Z.mod_pos_bound. lia. Qed.

Lemma s16_range z : is_s16 (s16 z).
Proof.
  unfold is_s16, s16. pose proof (Z.mod_pos_bound (z + 32768) 65536 ltac:(lia)). lia.
Qed.

Lemma u32_range z : 0 <= u32 z < 4294967296.
Proof. unfold u32. apply Z.mod_pos_bound. lia. Qed.

Lemma next_prpm_range pc p : is_s16 (next_prpm pc p).
Proof.
  unfold next_prpm.
  destruct (pc =? 0); [unfold is_s16; lia|].
  destruct (p =? 0); [apply s16_range|].
  pose proof (s16_range (p + s16 (pc * 3))) as H. unfold is_s16 in *.
  set (x := s16 (p + s16 (pc * 3))) in *.
  pose proof (Z.quot_rem x 2 ltac:(lia)) as E.
  pose proof (Z.rem_bound_abs x 2 ltac:(lia)) as B.
  lia.
Qed.

Lemma preserves_seq P (p r : proc) : preserves P p -> preserves P r -> preserves P (p ;; r).
Proof. intros Hp Hr s H. rewrite fst_seq. apply Hr, Hp, H. Qed.

Lemma preserves_branch P c (p r : proc) :
  preserves P p -> preserves P r -> preserves P (branch c p r).
Proof. intros Hp Hr s H. unfold branch. destruct (c s); [apply Hp | apply Hr]; exact H. Qed.

Lemma preserves_skip P : preserves P skip.
Proof. intros s H. exact H. Qed.

Lemma preserves_when P c (p : proc) : preserves P p -> preserves P (when c p).
Proof. intros Hp. apply preserves_branch; [exact Hp | apply preserves_skip]. Qed.

Lemma preserves_assign P f : (forall s, P s -> P (f s)) -> preserves P (assign f).
Proof. intros Hf s H. apply Hf, H. Qed.

Lemma preserves_emit P e : preserves P (emit e).
Proof. intros s H. exact H. Qed.

Ltac by_fields s := destruct s; unfold in_range; simpl; intuition.

Lemma in_range_set_pulseCount v s : is_s16 v -> in_range s -> in_range (set_pulseCount v s).
Proof. by_fields s. Qed.
Lemma in_range_set_startTime v s :
  0 <= v < 4294967296 -> in_range s -> in_range (set_startTime v s).
Proof. by_fields s. Qed.
Lemma in_range_set_prpm v s : is_s16 v -> in_range s -> in_range (set_prpm v s).
Proof. by_fields s. Qed.
Lemma in_range_set_Sensor1_Val v s : is_u16 v -> in_range s -> in_range (set_Sensor1_Val v s).
Proof. by_fields s. Qed.
Lemma in_range_set_Sensor2_Val v s : is_u16 v -> in_range s -> in_range (set_Sensor2_Val v s).
Proof. by_fields s. Qed.
Lemma in_range_set_Sensor3_Val v s : is_u16 v -> in_range s -> in_range (set_Sensor3_Val v s).
Proof. by_fields s. Qed.
Lemma in_range_set_dht_fields t h f hic hif s :
  is_u16 t -> is_u16 h -> is_u16 f -> is_u16 hic -> is_u16 hif ->
  in_range s -> in_range (set_dht_fields t h f hic hif s).
Proof. by_fields s. Qed.
Lemma in_range_set_flag p v s : in_range s -> in_range (set_flag p v s).
Proof. destruct p; by_fields s. Qed.
Lemma in_range_set_yar v s : in_range s -> in_range (set_yar v s).
Proof. by_fields s. Qed.
Lemma in_range_set_out p l s : in_range s -> in_range (set_out p l s).
Proof. by_fields s. Qed.
Lemma in_range_set_irq_attached b s : in_range s -> in_range (set_irq_attached b s).
Proof. by_fields s. Qed.

Lemma is_u16_0 : is_u16 0.
Proof. unfold is_u16. lia. Qed.

Lemma is_s16_0 : is_s16 0.
Proof. unfold is_s16. lia. Qed.

Ltac keeps :=
  repeat first
    [ apply preserves_seq
    | apply preserves_when
    | apply preserves_branch
    | apply preserves_skip
    | apply preserves_emit
    | apply preserves_assign; intros ? ? ].

Lemma in_range_digitalWrite p l : preserves in_range (digitalWrite p l).
Proof. intros s H. apply in_range_set_out, H. Qed.

Lemma in_range_detachInterrupt : preserves in_range detachInterrupt.
Proof. intros s H. apply in_range_set_irq_attached, H. Qed.

Lemma in_range_attachInterrupt : preserves in_range attachInterrupt.
Proof. intros s H. apply in_range_set_irq_attached, H. Qed.

Create HintDb range.
#[local] Hint Resolve u16_range s16_range u32_range next_prpm_range is_u16_0 is_s16_0
  in_range_set_pulseCount in_range_set_startTime in_range_set_prpm
  in_range_set_Sensor1_Val in_range_set_Sensor2_Val in_range_set_Sensor3_Val
  in_range_set_dht_fields in_range_set_flag in_range_set_yar in_range_set_out
  in_range_set_irq_attached in_range_digitalWrite in_range_detachInterrupt
  in_range_attachInterrupt : range.

Ltac keeps_range := keeps; intros; auto 6 with range.

Lemma in_range_Cal_RPM : preserves in_range Cal_RPM.
Proof. unfold Cal_RPM. keeps_range. Qed.

Lemma in_range_relay_block p : preserves in_range (relay_block p).
Proof. unfold relay_block. keeps_range. Qed.

Lemma in_range_RelayOperation : preserves in_range RelayOperation.
Proof. rewrite RelayOperation_blocks. keeps; apply in_range_relay_block. Qed.

Lemma in_range_send_frame : preserves in_range send_frame.
Proof. unfold send_frame, update_yar. keeps_range. Qed.

Lemma attached_set_startTime v s : attached s -> attached (set_startTime v s).
Proof. intros H. exact H. Qed.
Lemma attached_set_Sensor1_Val v s : attached s -> attached (set_Sensor1_Val v s).
Proof. intros H. exact H. Qed.
Lemma attached_set_Sensor2_Val v s : attached s -> attached (set_Sensor2_Val v s).
Proof. intros H. exact H. Qed.
Lemma attached_set_dht_fields t h f hic hif s :
  attached s -> attached (set_dht_fields t h f hic hif s).
Proof. intros H. exact H. Qed.
Lemma attached_set_flag p v s : attached s -> attached (set_flag p v s).
Proof. intros H. destruct p; exact H. Qed.
Lemma attached_set_yar v s : attached s -> attached (set_yar v s).
Proof. intros H. exact H. Qed.
Lemma attached_digitalWrite p l : preserves attached (digitalWrite p l).
Proof. intros s H. exact H. Qed.

Create HintDb attached.
#[local] Hint Resolve attached_set_startTime attached_set_Sensor1_Val
  attached_set_Sensor2_Val attached_set_dht_fields attached_set_flag attached_set_yar
  attached_digitalWrite : attached.

Ltac keeps_attached := keeps; intros; auto 6 with attached.

Lemma attached_relay_block p : preserves attached (relay_block p).
Proof. unfold relay_block. keeps_attached. Qed.

Lemma attached_RelayOperation : preserves attached RelayOperation.
Proof. rewrite RelayOperation_blocks. keeps; apply attached_relay_block. Qed.

Lemma attached_send_frame : preserves attached send_frame.
Proof. unfold send_frame, update_yar. keeps_attached. Qed.

Lemma Cal_RPM_attached s : attached (fst (Cal_RPM s)).
Proof. reflexivity. Qed.
Section InvariantFacts.
Context {F : FloatOps}.

Lemma in_range_DHT11_read i : preserves in_range (DHT11_read i).
Proof.
  unfold DHT11_read.
  destruct (isnan (dht_humidity i) || isnan (dht_temperature i) || isnan (dht_fahrenheit i));
    keeps_range.
Qed.

Lemma in_range_ReadSensor_values i : preserves in_range (ReadSensor_values i).
Proof.
  unfold ReadSensor_values. keeps_range.
  apply in_range_DHT11_read. assumption.
Qed.

Lemma attached_DHT11_read i : preserves attached (DHT11_read i).
Proof.
  unfold DHT11_read.
  destruct (isnan (dht_humidity i) || isnan (dht_temperature i) || isnan (dht_fahrenheit i));
    keeps_attached.
Qed.

Lemma attached_ReadSensor_values i : preserves attached (ReadSensor_values i).
Proof.
  unfold ReadSensor_values. keeps_attached.
  apply attached_DHT11_read. assumption.
Qed.

Lemma in_range_loop i : preserves in_range (Nano.loop i).
Proof.
  intros s H. unfold Nano.loop, when, branch, skip.
  destruct (MEASUREMENT_DURATION_MS <=? u32 (millis_check i - startTime s)); [|exact H].
  rewrite !fst_seq.
  apply in_range_set_startTime; [apply u32_range|].
  apply in_range_send_frame, in_range_RelayOperation, in_range_ReadSensor_values.
  apply in_range_Cal_RPM. exact H.
Qed.

Lemma attached_loop i : preserves attached (Nano.loop i).
Proof.
  intros s H. unfold Nano.loop, when, branch, skip.
  destruct (MEASUREMENT_DURATION_MS <=? u32 (millis_check i - startTime s)); [|exact H].
  rewrite !fst_seq.
  apply attached_send_frame, attached_RelayOperation, attached_ReadSensor_values.
  apply Cal_RPM_attached.
Qed.

(** X1: in every state the sketch reaches between two passes of [loop],
    every integer variable is within the range of its C type, every relay
    pin carries the level of its flag (so every flag is 0 or 1), and the
    speed-sensor interrupt is attached. *)
Theorem reachable_state_invariant s :
  reachable s -> in_range s /\ relay_inv s /\ irq_attached s = true.
Proof.
  intros Hr. split; [|split].
  - induction Hr as [millis | s Hr IH Hi | s i Hr IH].
    + unfold in_range, is_s16, is_u16. simpl.
      pose proof (u32_range (millis + MEASUREMENT_DURATION_MS)). repeat split; lia.
    + apply in_range_set_pulseCount; [apply s16_range | exact IH].
    + apply in_range_loop. exact IH.
  - apply reachable_relay_inv. exact Hr.
  - induction Hr as [millis | s Hr IH Hi | s i Hr IH].
    + reflexivity.
    + exact Hi.
    + apply attached_loop. exact IH.
Qed.

End InvariantFacts.

Lemma reachable_state_invariant_witness :
  in_range ExactFloat.steady_1kHz /\ relay_inv ExactFloat.steady_1kHz /\
  irq_attached ExactFloat.steady_1kHz = true.
Proof.
  apply (reachable_state_invariant (F := ExactFloat.ops) ExactFloat.steady_1kHz).
  unfold ExactFloat.steady_1kHz.
  apply edges_reachable.
  - apply reach_loop. apply edges_reachable.
    + apply (reach_setup 0).
    + reflexivity.
  - vm_compute. reflexivity.
Defined.

(** ** Timing of the measurement windows *)

Lemma u32_small z : 0 <= z < 4294967296 -> u32 z = z.
Proof. intros H. unfold u32. apply Z.mod_small. exact H. Qed.

Lemma u32_negative z : - 4294967296 <= z < 0 -> u32 z = z + 4294967296.
Proof.
  intros H. unfold u32.
  rewrite <- (Z_mod_plus_full z 1 4294967296).
  apply Z.mod_small. lia.
Qed.

Section WindowFacts.
Context {F : FloatOps}.

(** A pass whose window has elapsed runs the four stages in order and
    restarts the window. *)
Lemma loop_due i s :
  due i s = true ->
  fst (Nano.loop i s) =
    set_startTime (u32 (millis_end i))
      (fst (send_frame (fst (RelayOperation (fst (ReadSensor_values i (fst (Cal_RPM s)))))))) /\
  snd (Nano.loop i s) =
    snd (Cal_RPM s) ++
    snd (ReadSensor_values i (fst (Cal_RPM s))) ++
    snd (RelayOperation (fst (ReadSensor_values i (fst (Cal_RPM s))))) ++
    snd (send_frame (fst (RelayOperation (fst (ReadSensor_values i (fst (Cal_RPM s))))))) ++ [].
Proof.
  unfold due, Nano.loop, when, branch. intros ->. split; reflexivity.
Qed.

Lemma loop_not_due i s : due i s = false -> Nano.loop i s = (s, []).
Proof. unfold due, Nano.loop, when, branch. intros ->. reflexivity. Qed.

(** X2: [setup] puts [startTime] 10000 ms into the future, and the
    unsigned difference [millis() - startTime] wraps while [millis()] is
    still before it: a pass of [loop] during the first 10000 ms after
    [setup] evaluates a window at once and prints a frame. *)
Theorem first_pass_fires_at_once millis i :
  0 <= millis -> millis + 20000 <= 4294967296 ->
  0 <= millis_check i < millis + 10000 ->
  due i (fst (Nano.setup millis Nano.init)) = true /\
  exists s', esp_output (snd (Nano.loop i (fst (Nano.setup millis Nano.init)))) = [frame s'].
Proof.
  intros Hm Hb Hnow.
  assert (Hdue : due i (fst (Nano.setup millis Nano.init)) = true).
  { unfold due. change (startTime (fst (Nano.setup millis Nano.init)))
      with (u32 (millis + MEASUREMENT_DURATION_MS)).
    unfold MEASUREMENT_DURATION_MS.
    rewrite (u32_small (millis + 10000)) by lia.
    rewrite u32_negative by lia. apply Z.leb_le. lia. }
  split; [exact Hdue|].
  destruct (window_prints_one_frame_without_newline i (fst (Nano.setup millis Nano.init)))
    as (s' & Hs' & _).
  - apply setup_relay_inv.
  - exact Hdue.
  - exists s'. exact Hs'.
Qed.

(** X3: after a pass that evaluated a window, no pass within the next
    10000 ms does anything: the state is unchanged and nothing is written
    or printed. *)
Theorem windows_are_10000_ms_apart i i' s :
  due i s = true ->
  0 <= millis_end i < 4294967296 ->
  millis_end i <= millis_check i' < millis_end i + 10000 ->
  Nano.loop i' (fst (Nano.loop i s)) = (fst (Nano.loop i s), []).
Proof.
  intros Hdue He Hnow. apply loop_not_due.
  destruct (loop_due i s Hdue) as [-> _].
  unfold due. change (startTime (set_startTime ?v ?x)) with v.
  rewrite (u32_small (millis_end i)) by lia.
  rewrite u32_small by lia.
  unfold MEASUREMENT_DURATION_MS. apply Z.leb_gt. lia.
Qed.

End WindowFacts.

Lemma first_pass_fires_at_once_witness :
  exists s', esp_output (snd (Nano.loop (ExactFloat.window 5 512 300) ExactFloat.booted)) =
             [frame s'].
Proof.
  apply (first_pass_fires_at_once 0 (ExactFloat.window 5 512 300)).
  - lia.
  - lia.
  - simpl. lia.
Defined.

Lemma windows_are_10000_ms_apart_witness :
  let s1 := fst (Nano.loop (ExactFloat.window 20000 512 300) ExactFloat.booted) in
  Nano.loop (ExactFloat.window 29999 512 300) s1 = (s1, []).
Proof.
  apply (windows_are_10000_ms_apart (ExactFloat.window 20000 512 300)
           (ExactFloat.window 29999 512 300) ExactFloat.booted).
  - reflexivity.
  - simpl. lia.
  - simpl. lia.
Defined.

(** ** Sensor read-out and the relays at the end of a window *)

Lemma writes_to_nil_of_no_write p es :
  (forall r l, ~ In (DigitalWrite r l) es) -> writes_to p es = 0%nat.
Proof.
  unfold writes_to. induction es as [|e es IH]; intros H; [reflexivity|].
  destruct e as [r l| | | |]; simpl.
  - exfalso. apply (H r l). left. reflexivity.
  - apply IH. intros r l Hin. apply (H r l). right. exact Hin.
  - apply IH. intros r l Hin. apply (H r l). right. exact Hin.
  - apply IH. intros r l Hin. apply (H r l). right. exact Hin.
  - apply IH. intros r l Hin. apply (H r l). right. exact Hin.
Qed.

Lemma send_frame_keeps_samples s p :
  sample p (fst (send_frame s)) = sample p s /\
  writes_to p (snd (send_frame s)) = 0%nat.
Proof.
  run_proc. simpl.
  destruct p; repeat match goal with
    | |- context [if ?c then _ else _] => destruct c; simpl
    end; split; reflexivity.
Qed.

Section ReadOutFacts.
Context {F : FloatOps}.

Lemma DHT11_read_analog i s :
  Sensor1_Val (fst (DHT11_read i s)) = Sensor1_Val s /\
  Sensor2_Val (fst (DHT11_read i s)) = Sensor2_Val s /\
  (forall p, writes_to p (snd (DHT11_read i s)) = 0%nat).
Proof.
  unfold DHT11_read.
  destruct (isnan (dht_humidity i) || isnan (dht_temperature i) || isnan (dht_fahrenheit i));
    repeat split; reflexivity.
Qed.

(** The two analog samples after the read-out are the scaled readings. *)
Lemma ReadSensor_values_analog i s :
  Sensor1_Val (fst (ReadSensor_values i s)) = scaled_current (analog_current i) /\
  Sensor2_Val (fst (ReadSensor_values i s)) = scaled_voltage (analog_voltage i).
Proof.
  unfold ReadSensor_values. rewrite !fst_seq.
  match goal with
  | |- context [DHT11_read i ?s0] =>
      destruct (DHT11_read_analog i s0) as (-> & -> & _)
  end.
  unfold scaled_current, scaled_voltage. run_proc. simpl.
  repeat match goal with
    | |- context [if ?c then _ else _] => destruct c; simpl
    end; split; reflexivity.
Qed.

Lemma ReadSensor_values_no_write i s p :
  writes_to p (snd (ReadSensor_values i s)) = 0%nat.
Proof.
  unfold ReadSensor_values. rewrite !snd_seq, !writes_to_app.
  match goal with
  | |- context [DHT11_read i ?s0] =>
      destruct (DHT11_read_analog i s0) as (_ & _ & W); rewrite (W p)
  end.
  run_proc. simpl.
  repeat match goal with
    | |- context [if ?c then _ else _] => destruct c; simpl
    end; reflexivity.
Qed.

(** X5: after the read-out the voltage sample is either 0 or above 1000
    (and a 16-bit value): scaled readings up to 1000 are reported as 0. *)
Theorem voltage_sample_is_zero_or_above_1000 i s :
  Sensor2_Val (fst (ReadSensor_values i s)) = 0 \/
  1000 < Sensor2_Val (fst (ReadSensor_values i s)) < 65536.
Proof.
  destruct (ReadSensor_values_analog i s) as [_ ->].
  unfold scaled_voltage.
  set (v := u16 (to_uint (fmul (fdiv (of_uint (u16 (analog_voltage i))) lit_42_8) lit_1000))).
  pose proof (u16_range (to_uint (fmul (fdiv (of_uint (u16 (analog_voltage i))) lit_42_8)
                                    lit_1000))) as Hv.
  fold v in Hv. unfold is_u16 in Hv.
  destruct (Z.leb_spec v 1000); [left; reflexivity | right; lia].
Qed.

(** The samples at the end of a pass that evaluated a window. *)
Lemma loop_due_samples i s p :
  due i s = true ->
  sample p (fst (Nano.loop i s)) = sample p (fst (ReadSensor_values i (fst (Cal_RPM s)))).
Proof.
  intros Hdue. destruct (loop_due i s Hdue) as [-> _].
  transitivity (sample p (fst (send_frame
    (fst (RelayOperation (fst (ReadSensor_values i (fst (Cal_RPM s)))))))));
    [destruct p; reflexivity|].
  destruct (send_frame_keeps_samples
              (fst (RelayOperation (fst (ReadSensor_values i (fst (Cal_RPM s)))))) p)
    as [-> _].
  rewrite RelayOperation_blocks, !fst_seq, !relay_block_sample. reflexivity.
Qed.

(** X6: at the end of every pass that evaluates a window, the flag and
    the pin of each relay channel stand for [sample > bound] on the samples
    of that same window, and the pass has written the pin at most once. *)
Theorem window_leaves_relays_on_threshold i s p :
  relay_inv s -> due i s = true ->
  flag p (fst (Nano.loop i s)) = flag_of (triggered p (fst (Nano.loop i s))) /\
  out p (fst (Nano.loop i s)) = level_of (triggered p (fst (Nano.loop i s))) /\
  (writes_to p (snd (Nano.loop i s)) <= 1)%nat.
Proof.
  intros Hinv Hdue.
  assert (T : triggered p (fst (Nano.loop i s)) =
              triggered p (fst (ReadSensor_values i (fst (Cal_RPM s))))).
  { unfold triggered. rewrite loop_due_samples by exact Hdue. reflexivity. }
  rewrite T. destruct (loop_due i s Hdue) as [-> ->].
  set (s2 := fst (ReadSensor_values i (fst (Cal_RPM s)))) in *.
  assert (Hinv2 : relay_inv s2).
  { apply (same_relays_inv _ _ (ReadSensor_values_same_relays i _)).
    apply (same_relays_inv _ _ (Cal_RPM_same_relays s)). exact Hinv. }
  destruct (RelayOperation_channel s2 p Hinv2) as (Hf & Ho & W0 & W1).
  destruct (send_frame_same_relays (fst (RelayOperation s2)) p) as [Hf' Ho'].
  destruct (send_frame_keeps_samples (fst (RelayOperation s2)) p) as [_ Ws].
  split; [|split].
  - transitivity (flag p (fst (send_frame (fst (RelayOperation s2)))));
      [destruct p; reflexivity|]. rewrite Hf'. exact Hf.
  - transitivity (out p (fst (send_frame (fst (RelayOperation s2)))));
      [destruct p; reflexivity|]. rewrite Ho'. exact Ho.
  - rewrite !writes_to_app, Ws.
    unfold s2. rewrite ReadSensor_values_no_write.
    replace (writes_to p (snd (Cal_RPM s))) with 0%nat by (destruct p; reflexivity).
    change (writes_to p []) with 0%nat.
    destruct (Z.eq_dec (flag_of (triggered p s2)) (flag p s2)) as [E|E].
    + fold s2. rewrite (W0 E). lia.
    + fold s2. rewrite (W1 E). lia.
Qed.

(** X4: a raw current reading below 20 is reported as a current of 0, and
    the pass leaves the current relay off: flag 0, pin HIGH, and OFF in
    the frame. *)
Theorem low_current_reads_as_zero i s :
  relay_inv s -> due i s = true ->
  0 <= analog_current i < 20 ->
  Sensor1_Val (fst (Nano.loop i s)) = 0 /\
  flag RLY1 (fst (Nano.loop i s)) = 0 /\
  out RLY1 (fst (Nano.loop i s)) = HIGH /\
  relay_field RLY1 (fst (Nano.loop i s)) = str "OFF".
Proof.
  intros Hinv Hdue Hraw.
  assert (S1 : Sensor1_Val (fst (Nano.loop i s)) = 0).
  { change (Sensor1_Val (fst (Nano.loop i s))) with (sample RLY1 (fst (Nano.loop i s))).
    rewrite loop_due_samples by exact Hdue.
    change (sample RLY1 ?x) with (Sensor1_Val x).
    destruct (ReadSensor_values_analog i (fst (Cal_RPM s))) as [-> _].
    unfold scaled_current, u16. rewrite Z.mod_small by lia.
    destruct (Z.ltb_spec (analog_current i) 20); [reflexivity | lia]. }
  assert (Hinv2 : relay_inv (fst (ReadSensor_values i (fst (Cal_RPM s))))).
  { apply (same_relays_inv _ _ (ReadSensor_values_same_relays i _)).
    apply (same_relays_inv _ _ (Cal_RPM_same_relays s)). exact Hinv. }
  assert (T : triggered RLY1 (fst (Nano.loop i s)) = false).
  { unfold triggered, sample, bound, CURRENT_NORMAL. rewrite S1. reflexivity. }
  assert (Hf : flag RLY1 (fst (Nano.loop i s)) = 0 /\ out RLY1 (fst (Nano.loop i s)) = HIGH).
  { destruct (loop_due i s Hdue) as [E _].
    destruct (RelayOperation_channel _ RLY1 Hinv2) as (Hf & Ho & _).
    destruct (send_frame_same_relays
                (fst (RelayOperation (fst (ReadSensor_values i (fst (Cal_RPM s)))))) RLY1)
      as [Hf' Ho'].
    assert (T2 : triggered RLY1 (fst (ReadSensor_values i (fst (Cal_RPM s)))) = false).
    { rewrite <- T. unfold triggered. rewrite loop_due_samples by exact Hdue. reflexivity. }
    rewrite T2 in Hf, Ho. rewrite E. split.
    - transitivity (flag RLY1 (fst (send_frame
        (fst (RelayOperation (fst (ReadSensor_values i (fst (Cal_RPM s)))))))));
        [reflexivity|]. rewrite Hf'. exact Hf.
    - transitivity (out RLY1 (fst (send_frame
        (fst (RelayOperation (fst (ReadSensor_values i (fst (Cal_RPM s)))))))));
        [reflexivity|]. rewrite Ho'. exact Ho. }
  destruct Hf as [Hf Ho].
  repeat split; try assumption.
  unfold relay_field, frame_fields. cbn [nth]. simpl in Hf. rewrite Hf. reflexivity.
Qed.

End ReadOutFacts.

Lemma window_leaves_relays_on_threshold_witness :
  let s' := fst (Nano.loop (ExactFloat.window 20000 512 900) ExactFloat.booted) in
  flag RLY2 s' = 1 /\ out RLY2 s' = LOW /\
  (writes_to RLY2 (snd (Nano.loop (ExactFloat.window 20000 512 900) ExactFloat.booted)) <= 1)%nat.
Proof.
  apply (window_leaves_relays_on_threshold
           (ExactFloat.window 20000 512 900) ExactFloat.booted RLY2).
  - intros p. exists false. destruct p; split; reflexivity.
  - reflexivity.
Defined.

Lemma low_current_reads_as_zero_witness :
  let s' := fst (Nano.loop (ExactFloat.window 20000 15 900) ExactFloat.booted) in
  Sensor1_Val s' = 0 /\ flag RLY1 s' = 0 /\ out RLY1 s' = HIGH /\
  relay_field RLY1 s' = str "OFF".
Proof.
  apply (low_current_reads_as_zero (ExactFloat.window 20000 15 900) ExactFloat.booted).
  - intros p. exists false. destruct p; split; reflexivity.
  - reflexivity.
  - simpl. lia.
Defined.

(** ** Sizes of the encoder's buffers *)

Lemma utoa_digits k fuel n acc :
  (1 <= k <= fuel)%nat -> 0 <= n < 10 ^ Z.of_nat k ->
  (List.length (utoa fuel n acc) <= k + List.length acc)%nat.
Proof.
  revert k n acc. induction fuel as [|fuel IH]; intros k n acc Hk Hn; [lia|].
  cbn [utoa]. destruct (Z.eqb_spec (n / 10) 0) as [E|E]; cbn [List.length]; [lia|].
  destruct k as [|k]; [lia|].
  destruct k as [|k].
  - exfalso. apply E. apply Z.div_small. simpl in Hn. lia.
  - assert (Hq : 0 <= n / 10 < 10 ^ Z.of_nat (S k)).
    { split; [apply Z.div_pos; lia|].
      apply Z.div_lt_upper_bound; [lia|].
      replace (Z.of_nat (S (S k))) with (Z.succ (Z.of_nat (S k))) in Hn by lia.
      rewrite Z.pow_succ_r in Hn by lia. lia. }
    specialize (IH (S k) (n / 10) (digit (n mod 10) :: acc) ltac:(lia) Hq).
    cbn [List.length] in IH. lia.
Qed.

(** [%d] on a 16-bit value takes at most six characters. *)
Lemma fmt_d_u16_length v : (List.length (fmt_d_u16 v) <= 6)%nat.
Proof.
  unfold fmt_d_u16, fmt_d. pose proof (s16_range v) as H. unfold is_s16 in H.
  destruct (Z.ltb_spec (s16 v) 0).
  - cbn [List.length].
    pose proof (utoa_digits 5 10 (- s16 v) [] ltac:(lia)) as D.
    change (10 ^ Z.of_nat 5) with 100000 in D. cbn [List.length] in D.
    specialize (D ltac:(lia)). lia.
  - pose proof (utoa_digits 5 10 (s16 v) [] ltac:(lia)) as D.
    change (10 ^ Z.of_nat 5) with 100000 in D. cbn [List.length] in D.
    specialize (D ltac:(lia)). lia.
Qed.

Lemma relay_token_length v : (List.length (relay_token v) <= 3)%nat.
Proof. unfold relay_token. destruct (v =? 0); simpl; lia. Qed.

(** X7: with every flag 0 or 1, each of the thirteen fields the encoder
    formats takes at most six characters, so it fits its 10-byte buffer
    with the terminating NUL, and the frame takes at most 84 characters,
    so it fits the 200-byte [str]. *)
Theorem frame_fits_its_buffers s :
  flags_ok s ->
  (longest_field (fst (send_frame s)) <= 6)%nat /\
  (List.length (frame (fst (send_frame s))) <= 84)%nat.
Proof.
  intros Hok.
  assert (Hy : (List.length (yar (fst (send_frame s))) <= 3)%nat).
  { change (fst (send_frame s)) with (fst (update_yar s)).
    destruct (update_yar_tokens s Hok) as [-> | ->]; simpl; lia. }
  set (s' := fst (send_frame s)) in *.
  pose proof (fmt_d_u16_length (Sensor1_Val s')) as L1.
  pose proof (fmt_d_u16_length (Sensor2_Val s')) as L2.
  pose proof (fmt_d_u16_length (Sensor3_Val s')) as L3.
  pose proof (fmt_d_u16_length (Sensor4_Val s')) as L4.
  pose proof (fmt_d_u16_length (Sensor5_Val s')) as L5.
  pose proof (fmt_d_u16_length (Sensor6_Val s')) as L6.
  pose proof (fmt_d_u16_length (Sensor7_Val s')) as L7.
  pose proof (fmt_d_u16_length (Sensor8_Val s')) as L8.
  pose proof (relay_token_length (RLY1_STATUS s')) as R1.
  pose proof (relay_token_length (RLY2_STATUS s')) as R2.
  pose proof (relay_token_length (RLY3_STATUS s')) as R3.
  split.
  - unfold longest_field, frame_fields. cbn [map fold_right].
    change (List.length (str "RSV")) with 3%nat. lia.
  - unfold frame, frame_fields. cbn [strcat_fields].
    repeat (rewrite length_app; cbn [List.length]).
    change (List.length (str "ADU_TEXT&")) with 9%nat.
    change (List.length (str "RSV")) with 3%nat. lia.
Qed.

Lemma frame_fits_its_buffers_witness :
  let s := set_Sensor1_Val 40000 (set_Sensor2_Val 21028 (set_RLY2_STATUS 1 ExactFloat.booted)) in
  flags_ok s /\
  (longest_field (fst (send_frame s)) <= 6)%nat /\
  (List.length (frame (fst (send_frame s))) <= 84)%nat.
Proof.
  assert (Hok : flags_ok (set_Sensor1_Val 40000
                  (set_Sensor2_Val 21028 (set_RLY2_STATUS 1 ExactFloat.booted)))).
  { intros p. destruct p; [left | right | left]; reflexivity. }
  split; [exact Hok|].
  apply (frame_fits_its_buffers
           (set_Sensor1_Val 40000 (set_Sensor2_Val 21028 (set_RLY2_STATUS 1 ExactFloat.booted)))
           Hok).
Defined.

(** ** The estimator away from the 16-bit limits *)

(** X8: when the pulse count is not 0 and neither [pulseCount * 3] nor
    [prpm + pulseCount * 3] leaves the range of a 16-bit [int], the new
    smoothed estimate lies between the previous one and the raw one; with
    a previous estimate of 0 it is the raw one. *)
Theorem Cal_RPM_between_without_wrap s :
  pulseCount s <> 0 ->
  is_s16 (pulseCount s * 3) -> is_s16 (prpm s + pulseCount s * 3) ->
  between (prpm s) (pulseCount s * 3) (prpm (fst (Cal_RPM s))) /\
  (prpm s = 0 -> prpm (fst (Cal_RPM s)) = pulseCount s * 3).
Proof.
  intros Hpc H3 Hsum. rewrite Cal_RPM_prpm. split.
  - apply next_prpm_between; assumption.
  - intros Hp. unfold next_prpm.
    destruct (Z.eqb_spec (pulseCount s) 0) as [|_]; [contradiction|].
    rewrite Hp. simpl. apply s16_small. exact H3.
Qed.

Lemma Cal_RPM_between_without_wrap_witness :
  let s := set_prpm 1500 (set_pulseCount 700 ExactFloat.booted) in
  between 1500 2100 (prpm (fst (Cal_RPM s))) /\ prpm (fst (Cal_RPM s)) = 1800.
Proof.
  split.
  - apply (Cal_RPM_between_without_wrap (set_prpm 1500 (set_pulseCount 700 ExactFloat.booted))).
    + discriminate.
    + unfold is_s16. simpl. lia.
    + unfold is_s16. simpl. lia.
  - reflexivity.
Defined.

(** X9: after [Cal_RPM] has reset the counter, [n] runs of the edge
    handler leave it at [n] reduced to the 16-bit [int] range, and at
    exactly [n] for fewer than 32768 edges; the next [Cal_RPM] then
    computes its estimate from that count. *)
Theorem counter_is_exact_below_32768 s n :
  Z.of_nat n < 32768 ->
  pulseCount (edges n (fst (Cal_RPM s))) = Z.of_nat n /\
  prpm (fst (Cal_RPM (edges n (fst (Cal_RPM s))))) =
    next_prpm (Z.of_nat n) (prpm (fst (Cal_RPM s))).
Proof.
  intros Hn.
  assert (E : pulseCount (edges n (fst (Cal_RPM s))) = Z.of_nat n).
  { apply edges_exact; [apply Cal_RPM_resets_count | exact Hn]. }
  split; [exact E|].
  rewrite Cal_RPM_prpm, E. f_equal.
  clear E Hn. induction n as [|n IH]; [reflexivity|]. exact IH.
Qed.

Lemma counter_is_exact_below_32768_witness :
  pulseCount (edges 500 (fst (Cal_RPM ExactFloat.booted))) = 500 /\
  prpm (fst (Cal_RPM (edges 500 (fst (Cal_RPM ExactFloat.booted))))) = 1500.
Proof.
  apply (counter_is_exact_below_32768 ExactFloat.booted 500). lia.
Defined.

(** * Further properties of the Forwarding Node *)

(** ** The JSON text and its buffer *)

(** The JSON text is 159 characters of template plus the contents of
    [data1] .. [data13]. *)
Lemma json_length d : List.length (json d) = (159 + payload_chars d)%nat.
Proof.
  unfold json, payload_chars.
  generalize (data 1 d) (data 2 d) (data 3 d) (data 4 d) (data 5 d) (data 6 d)
    (data 7 d) (data 8 d) (data 9 d) (data 10 d) (data 11 d) (data 12 d) (data 13 d).
  intros f1 f2 f3 f4 f5 f6 f7 f8 f9 f10 f11 f12 f13.
  unfold q. cbn [str list_ascii_of_string app List.length].
  repeat (rewrite length_app; cbn [List.length app]).
  lia.
Qed.

Lemma sprintf_json_cases d :
  sprintf_json d = if (payload_chars d <=? 140)%nat then Some (json d) else None.
Proof.
  unfold sprintf_json. rewrite json_length.
  destruct (Nat.leb_spec (payload_chars d) 140) as [H|H].
  - assert (E : (159 + payload_chars d <? 300)%nat = true) by (apply Nat.ltb_lt; lia).
    rewrite E. reflexivity.
  - assert (E : (159 + payload_chars d <? 300)%nat = false) by (apply Nat.ltb_ge; lia).
    rewrite E. reflexivity.
Qed.

(** X10: [sprintf] stays within [jsonBuffer[300]] exactly when the
    thirteen forwarded buffers hold at most 140 characters in total; the
    JSON text then has 159 characters more than they do. *)
Theorem sprintf_json_fits_up_to_140 d :
  List.length (json d) = (159 + payload_chars d)%nat /\
  sprintf_json d = if (payload_chars d <=? 140)%nat then Some (json d) else None.
Proof.
  split.
  - apply json_length.
  - apply sprintf_json_cases.
Qed.

(** ** What [sendData] does in each case *)

(** X11: a call of [sendData] makes at most one POST, always to
    [serverUrl] with the JSON of the buffers and only with WiFi connected
    and the connection opened; it calls [WiFi.begin] exactly when WiFi is
    not connected; and it has no defined result only when the JSON text
    overruns [jsonBuffer]. *)
Theorem sendData_outcomes net d :
  match sendData net d with
  | Some ev =>
      posts ev = (if wifi_connected net && http_begin_ok net
                  then [(serverUrl, json d)] else []) /\
      wifi_begins ev = (if wifi_connected net then 0 else 1)%nat
  | None =>
      wifi_connected net = true /\ http_begin_ok net = true /\
      (140 < payload_chars d)%nat
  end.
Proof.
  unfold sendData.
  destruct (wifi_connected net); [|split; reflexivity].
  destruct (http_begin_ok net); [|split; reflexivity].
  rewrite sprintf_json_cases.
  destruct (Nat.leb_spec (payload_chars d) 140) as [H|H].
  - destruct (0 <? httpResponseCode net); split; reflexivity.
  - repeat split. exact H.
Qed.

(** [sendData] has no defined result only when the JSON text overruns its
    buffer. *)
Lemma sendData_overrun net d :
  sendData net d = None -> (140 < payload_chars d)%nat.
Proof.
  unfold sendData.
  destruct (wifi_connected net); [|discriminate].
  destruct (http_begin_ok net); [|discriminate].
  rewrite sprintf_json_cases.
  destruct (Nat.leb_spec (payload_chars d) 140) as [H|H]; [discriminate|].
  intros _. exact H.
Qed.

(** ** The receive buffers *)

Lemma span_width p w inp : (List.length (fst (span p w inp)) <= w)%nat.
Proof.
  revert inp. induction w as [|w IH]; intros inp; [destruct inp; simpl; lia|].
  destruct inp as [|c inp]; simpl; [lia|].
  destruct (p c); [|simpl; lia].
  specialize (IH inp). destruct (span p w inp). simpl in *. lia.
Qed.

Lemma scan_widths fmt inp :
  widths_ok fmt = true ->
  Forall (fun f => (List.length f <= 29)%nat) (fst (scan fmt inp)).
Proof.
  revert inp. induction fmt as [|dir fmt IH]; intros inp Hw; [constructor|].
  cbn [widths_ok forallb] in Hw. apply andb_prop in Hw as [Hd Hw].
  destruct dir as [w x|c|w]; cbn [scan].
  - destruct inp as [|a inp]; [constructor|].
    pose proof (span_width (fun c => negb (Ascii.eqb c x)) w (a :: inp)) as Hs.
    destruct (span _ w (a :: inp)) as [[|b m] rest]; [constructor|].
    specialize (IH rest Hw). destruct (scan fmt rest). cbn [fst] in *.
    constructor; [|exact IH]. apply Nat.leb_le in Hd. lia.
  - destruct inp as [|a inp]; [constructor|].
    destruct (Ascii.eqb a c); [apply IH; exact Hw | constructor].
  - destruct (skip_space inp) as [|a inp']; [constructor|].
    pose proof (span_width (fun c => negb (isspace c)) w (a :: inp')) as Hs.
    destruct (span _ w (a :: inp')) as [m rest].
    specialize (IH rest Hw). destruct (scan fmt rest). cbn [fst] in *.
    constructor; [|exact IH]. apply Nat.leb_le in Hd. lia.
Qed.

Lemma assign_args_keeps ms args :
  Forall (fun f => (List.length f <= 29)%nat) ms ->
  Forall (fun f => (List.length f <= 29)%nat) args ->
  List.length (assign_args ms args) = List.length args /\
  Forall (fun f => (List.length f <= 29)%nat) (assign_args ms args).
Proof.
  revert args. induction ms as [|m ms IH]; intros args Hms Hargs; [split; [reflexivity | exact Hargs]|].
  destruct args as [|a args]; [split; [reflexivity | constructor]|].
  inversion Hms as [|? ? Hm Hms']. inversion Hargs as [|? ? Ha Hargs']. subst.
  destruct (IH args Hms' Hargs') as [Hl Hf]. cbn [assign_args List.length].
  split; [rewrite Hl; reflexivity | constructor; assumption].
Qed.

(** X12: the split of any received line leaves fourteen buffers, each
    holding at most 29 characters: the field widths of the format keep
    every [char[30]] buffer from overflowing, whatever the line. *)
Theorem parse_keeps_buffers_in_bounds line d :
  buffers_ok d -> buffers_ok (snd (parse line d)).
Proof.
  intros [Hlen Hall]. unfold buffers_ok, parse, sscanf.
  pose proof (scan_widths frame_format (c_str line) eq_refl) as Hs.
  destruct (scan frame_format (c_str line)) as [ms eof]. cbn [fst snd] in *.
  destruct (assign_args_keeps ms d Hs Hall) as [Hl Hf].
  split; [rewrite Hl; exact Hlen | exact Hf].
Qed.

Lemma parse_keeps_buffers_in_bounds_witness :
  buffers_ok Esp.init /\
  buffers_ok (snd (parse (str "ADU_TEXT&123456789012345678901234567890&200") Esp.init)).
Proof.
  assert (H0 : buffers_ok Esp.init).
  { split; [reflexivity|]. repeat constructor. }
  split; [exact H0|].
  apply (parse_keeps_buffers_in_bounds
           (str "ADU_TEXT&123456789012345678901234567890&200") Esp.init H0).
Defined.

(** ** Lines that convert nothing *)

Lemma posted_nonempty net d rx :
  rx <> [] ->
  wifi_connected net = true -> http_begin_ok net = true ->
  (List.length (json (snd (parse (fst (readBytesUntil newline 500 rx)) d))) < 300)%nat ->
  posted net d rx =
    Some [(serverUrl, json (snd (parse (fst (readBytesUntil newline 500 rx)) d)))].
Proof.
  intros Hne Hw Hb Hfit. destruct rx as [|c rx]; [contradiction|].
  unfold posted. destruct (loop_posts net d c rx Hw Hb Hfit) as (ev & -> & Hp).
  simpl. rewrite Hp. reflexivity.
Qed.

(** X13: an empty line (a lone newline) and a line that starts with the
    delimiter convert no field and leave every buffer as it was, and the
    pass still posts: the body is the JSON of the previous frame's
    fields. *)
Theorem empty_line_reposts_previous_fields net d c rx :
  c = newline \/ c = amp ->
  wifi_connected net = true -> http_begin_ok net = true ->
  (payload_chars d <= 140)%nat ->
  snd (parse (fst (readBytesUntil newline 500 (c :: rx))) d) = d /\
  posted net d (c :: rx) = Some [(serverUrl, json d)].
Proof.
  intros Hc Hw Hb Hfit.
  assert (E : snd (parse (fst (readBytesUntil newline 500 (c :: rx))) d) = d).
  { destruct Hc as [-> | ->].
    - reflexivity.
    - change (readBytesUntil newline 500 (amp :: rx))
        with (let (l, r) := readBytesUntil newline 499 rx in (amp :: l, r)).
      destruct (readBytesUntil newline 499 rx) as [l r]. reflexivity. }
  split; [exact E|].
  rewrite posted_nonempty; try assumption; try discriminate.
  - rewrite E. reflexivity.
  - rewrite E, json_length. lia.
Qed.

Lemma empty_line_reposts_previous_fields_witness :
  posted online after_full_frame (newline :: str "ADU_TEXT&1") =
    Some [(serverUrl, json after_full_frame)].
Proof.
  apply (empty_line_reposts_previous_fields online after_full_frame newline (str "ADU_TEXT&1")).
  - left. reflexivity.
  - reflexivity.
  - reflexivity.
  - vm_compute. lia.
Defined.

(** ** Start-up of the Forwarding Node *)

Lemma await_connection_waits n rest :
  exists ev,
    await_connection (repeat false n ++ true :: rest) = Some ev /\
    delayed ev = 500 * Z.of_nat n /\ posts ev = [] /\ wifi_begins ev = 0%nat.
Proof.
  induction n as [|n (ev & E & Hd & Hp & Hw)].
  - exists []. repeat split; reflexivity.
  - exists (Delay 500 :: SerialPrint (str ".") :: ev).
    cbn [repeat app await_connection]. rewrite E.
    repeat split; try assumption.
    cbn [delayed]. rewrite Hd. lia.
Qed.

Lemma await_connection_blocks n : await_connection (repeat false n) = None.
Proof.
  induction n as [|n IH]; [reflexivity|].
  cbn [repeat await_connection]. rewrite IH. reflexivity.
Qed.

Lemma delayed_app es es' : delayed (es ++ es') = delayed es + delayed es'.
Proof.
  induction es as [|e es IH]; [reflexivity|].
  destruct e; cbn [app delayed]; rewrite ?IH; lia.
Qed.

Lemma wifi_begins_app es es' :
  wifi_begins (es ++ es') = (wifi_begins es + wifi_begins es')%nat.
Proof.
  induction es as [|e es IH]; [reflexivity|].
  destruct e; cbn [app wifi_begins]; rewrite ?IH; lia.
Qed.

(** X14: [setup] does not return while [WiFi.status()] keeps reporting no
    connection; when the first positive answer comes after [n] negative
    ones it returns after waiting [500 * n] ms, having called [WiFi.begin]
    once and made no POST. *)
Theorem setup_waits_for_wifi localIP n rest :
  Esp.setup localIP (repeat false n) = None /\
  exists ev,
    Esp.setup localIP (repeat false n ++ true :: rest) = Some ev /\
    delayed ev = 500 * Z.of_nat n /\ posts ev = [] /\ wifi_begins ev = 1%nat.
Proof.
  split.
  - unfold Esp.setup. rewrite await_connection_blocks. reflexivity.
  - destruct (await_connection_waits n rest) as (ev & E & Hd & Hp & Hw).
    unfold Esp.setup. rewrite E. cbn [option_map].
    eexists. split; [reflexivity|].
    cbn [delayed posts wifi_begins].
    rewrite delayed_app, posts_app, wifi_begins_app, Hd, Hp, Hw.
    repeat split; cbn; lia.
Qed.

(** ** From the Sensing Node's frame to the POST *)

Lemma frame_parse s d :
  flags_ok s -> List.length d = 14%nat ->
  readBytesUntil newline 500 (frame (fst (send_frame s))) =
    (frame (fst (send_frame s)), []) /\
  parse (frame (fst (send_frame s))) d =
    (14, str "ADU_TEXT" :: frame_fields (fst (send_frame s))).
Proof.
  intros Hok Hd.
  pose proof (frame_fields_ok s Hok) as Hall.
  set (s' := fst (send_frame s)) in *.
  set (l := str "ADU_TEXT" :: frame_fields s') in *.
  rewrite frame_as_fields. fold l.
  assert (Hlen : List.length l = 14%nat) by reflexivity.
  split.
  - apply readBytesUntil_whole.
    + apply strcat_fields_chars; [reflexivity | | exact Hall].
      intros c Hc. apply plain_not_space in Hc.
      destruct (Ascii.eqb_spec c newline) as [->|]; [discriminate Hc | reflexivity].
    + pose proof (strcat_fields_length l Hall). lia.
  - unfold parse, sscanf.
    rewrite c_str_no_nul
      by (apply strcat_fields_chars; [reflexivity | apply plain_not_nul | exact Hall]).
    change frame_format with (fields_format (pred (List.length l))).
    rewrite scan_fields by (discriminate || exact Hall).
    rewrite assign_args_all by lia.
    reflexivity.
Qed.

Lemma frame_payload_chars s :
  flags_ok s ->
  (payload_chars (str "ADU_TEXT" :: frame_fields (fst (send_frame s))) <= 68)%nat.
Proof.
  intros Hok.
  assert (Hy : (List.length (yar (fst (send_frame s))) <= 3)%nat).
  { change (fst (send_frame s)) with (fst (update_yar s)).
    destruct (update_yar_tokens s Hok) as [-> | ->]; simpl; lia. }
  set (s' := fst (send_frame s)) in *.
  pose proof (fmt_d_u16_length (Sensor1_Val s')) as L1.
  pose proof (fmt_d_u16_length (Sensor2_Val s')) as L2.
  pose proof (fmt_d_u16_length (Sensor3_Val s')) as L3.
  pose proof (fmt_d_u16_length (Sensor4_Val s')) as L4.
  pose proof (fmt_d_u16_length (Sensor5_Val s')) as L5.
  pose proof (fmt_d_u16_length (Sensor6_Val s')) as L6.
  pose proof (fmt_d_u16_length (Sensor7_Val s')) as L7.
  pose proof (fmt_d_u16_length (Sensor8_Val s')) as L8.
  pose proof (relay_token_length (RLY1_STATUS s')) as R1.
  pose proof (relay_token_length (RLY2_STATUS s')) as R2.
  pose proof (relay_token_length (RLY3_STATUS s')) as R3.
  unfold payload_chars, data, frame_fields.
  cbn [Nat.sub nth].
  change (List.length (str "ADU_TEXT")) with 8%nat. lia.
Qed.

(** X15: a frame printed by the Sensing Node (flags 0 or 1) and received
    whole by the Forwarding Node with the network up is posted once, and
    the body is the JSON of the encoder's own field strings: the type tag
    under TYPE and the next twelve fields under VAL1 .. VAL12; the JSON
    text always fits its buffer. *)
Theorem frame_is_posted_field_for_field net s d :
  flags_ok s -> List.length d = 14%nat ->
  wifi_connected net = true -> http_begin_ok net = true ->
  posted net d (frame (fst (send_frame s))) =
    Some [(serverUrl, json (str "ADU_TEXT" :: frame_fields (fst (send_frame s))))].
Proof.
  intros Hok Hd Hw Hb.
  destruct (frame_parse s d Hok Hd) as [Hread Hparse].
  pose proof (frame_payload_chars s Hok) as Hchars.
  rewrite posted_nonempty; try assumption.
  - rewrite Hread. cbn [fst]. rewrite Hparse. reflexivity.
  - discriminate.
  - rewrite Hread. cbn [fst]. rewrite Hparse. cbn [snd]. rewrite json_length. lia.
Qed.

Lemma frame_is_posted_field_for_field_witness :
  let s := set_Sensor2_Val 21028 (set_RLY2_STATUS 1 ExactFloat.booted) in
  posted online Esp.init (frame (fst (send_frame s))) =
    Some [(serverUrl, json (str "ADU_TEXT" :: frame_fields (fst (send_frame s))))].
Proof.
  apply (frame_is_posted_field_for_field online
           (set_Sensor2_Val 21028 (set_RLY2_STATUS 1 ExactFloat.booted)) Esp.init).
  - intros p. destruct p; [left | right | left]; reflexivity.
  - reflexivity.
  - reflexivity.
  - reflexivity.
Defined.

(** ** The fourteenth field *)

Lemma scan_last_word w :
  word_ok w = true -> scan [Word 29] w = ([w], false).
Proof.
  intros Hok. destruct w as [|c w]; [discriminate|].
  unfold word_ok in Hok. apply andb_prop in Hok as [Hlen Hall].
  apply Nat.leb_le in Hlen.
  assert (Hsp : forallb (fun c => negb (isspace c)) (c :: w) = true).
  { apply forallb_weaken with (p := wordchar); [|exact Hall].
    intros a Ha. unfold wordchar in Ha. apply andb_prop in Ha as [Ha _]. exact Ha. }
  assert (Hc : isspace c = false).
  { cbn [forallb] in Hsp. apply andb_prop in Hsp as [Hc _].
    destruct (isspace c); [discriminate | reflexivity]. }
  cbn [scan skip_space]. rewrite Hc.
  rewrite span_whole by assumption. reflexivity.
Qed.

Lemma strcat_fields_snoc f l w :
  strcat_fields ((f :: l) ++ [w]) = f ++ amp :: strcat_fields (l ++ [w]).
Proof. destruct l; reflexivity. Qed.

Lemma scan_fields_word l w :
  forallb field_ok l = true -> word_ok w = true ->
  scan (fields_format (List.length l)) (strcat_fields (l ++ [w])) = (l ++ [w], false).
Proof.
  intros Hall Hw. induction l as [|f l IH].
  - apply scan_last_word. exact Hw.
  - cbn [forallb] in Hall. apply andb_prop in Hall as [Hf Hall].
    rewrite strcat_fields_snoc.
    change (fields_format (List.length (f :: l)))
      with (Scanset 29 amp :: Literal amp :: fields_format (List.length l)).
    rewrite scan_field by exact Hf.
    rewrite IH by exact Hall. reflexivity.
Qed.

Lemma strcat_fields_word_no_nul l w :
  forallb field_ok l = true -> word_ok w = true ->
  forallb (fun c => negb (Ascii.eqb c nul)) (strcat_fields (l ++ [w])) = true.
Proof.
  intros Hall Hw. induction l as [|f l IH].
  - destruct w as [|c w]; [discriminate|].
    unfold word_ok in Hw. apply andb_prop in Hw as [_ Hw].
    apply forallb_weaken with (p := wordchar); [|exact Hw].
    intros a Ha. unfold wordchar in Ha. apply andb_prop in Ha as [_ Ha]. exact Ha.
  - cbn [forallb] in Hall. apply andb_prop in Hall as [Hf Hall].
    rewrite strcat_fields_snoc, forallb_app. cbn [forallb].
    destruct (field_ok_inv f Hf) as (_ & _ & Hpf).
    apply forallb_weaken with (r := fun c => negb (Ascii.eqb c nul)) in Hpf;
      [|apply plain_not_nul].
    rewrite Hpf, IH by exact Hall. reflexivity.
Qed.

Lemma json_of_first_thirteen l t t' :
  List.length l = 13%nat -> json (l ++ t) = json (l ++ t').
Proof.
  intros Hl. unfold json, data. cbn [Nat.sub].
  rewrite !(app_nth1 l t) by lia. rewrite !(app_nth1 l t') by lia. reflexivity.
Qed.

(** X16: a line of thirteen well-formed fields followed by any last field
    of 1 to 29 characters without white space or NUL is accepted as a
    full frame (14 conversions), even when the last field contains further
    delimiters; and whatever the fourteenth buffer holds, it has no part
    in the JSON text. *)
Theorem last_field_absorbs_and_is_dropped l w w' d :
  List.length l = 13%nat -> forallb field_ok l = true -> word_ok w = true ->
  List.length d = 14%nat ->
  parse (strcat_fields (l ++ [w])) d = (14, l ++ [w]) /\
  json (l ++ [w]) = json (l ++ [w']).
Proof.
  intros Hl Hall Hw Hd. split.
  - unfold parse, sscanf.
    rewrite c_str_no_nul by (apply strcat_fields_word_no_nul; assumption).
    pose proof (scan_fields_word l w Hall Hw) as S. rewrite Hl in S.
    change (fields_format 13) with frame_format in S. rewrite S.
    rewrite assign_args_all by (rewrite length_app, Hl, Hd; reflexivity).
    destruct l as [|f l]; [discriminate Hl|].
    cbn [app]. f_equal. cbn [List.length] in *. rewrite length_app. cbn [List.length]. lia.
  - apply json_of_first_thirteen. exact Hl.
Qed.

Lemma last_field_absorbs_and_is_dropped_witness :
  let l := map str ["ADU_TEXT"; "10"; "200"; "1500"; "25"; "60"; "77"; "26"; "79";
                    "OFF"; "ON"; "OFF"; "BUZ"]%string in
  parse (strcat_fields (l ++ [str "RSV&9&8"])) Esp.init = (14, l ++ [str "RSV&9&8"]) /\
  json (l ++ [str "RSV&9&8"]) = json (l ++ [str "RSV"]).
Proof.
  apply (last_field_absorbs_and_is_dropped
           (map str ["ADU_TEXT"; "10"; "200"; "1500"; "25"; "60"; "77"; "26"; "79";
                     "OFF"; "ON"; "OFF"; "BUZ"]%string)
           (str "RSV&9&8") (str "RSV") Esp.init).
  - reflexivity.
  - reflexivity.
  - reflexivity.
  - reflexivity.
Defined.

(** ** How much of the input a pass consumes *)

Lemma readBytesUntil_accounts t n rx :
  (List.length (fst (readBytesUntil t n rx)) <= n)%nat /\
  ~ In t (fst (readBytesUntil t n rx)) /\
  (rx = fst (readBytesUntil t n rx) ++ snd (readBytesUntil t n rx) \/
   rx = fst (readBytesUntil t n rx) ++ t :: snd (readBytesUntil t n rx)).
Proof.
  revert rx. induction n as [|n IH]; intros rx.
  - destruct rx; cbn; (split; [lia|]); (split; [tauto|]); left; reflexivity.
  - destruct rx as [|c rx]; [cbn; split; [lia|]; split; [tauto|]; left; reflexivity|].
    cbn [readBytesUntil]. destruct (Ascii.eqb_spec c t) as [->|Hne].
    + cbn. split; [lia|]. split; [tauto|]. right. reflexivity.
    + destruct (IH rx) as (Hl & Hin & Hrx).
      destruct (readBytesUntil t n rx) as [l r]. cbn [fst snd List.length app] in *.
      split; [lia|]. split.
      * intros [E|E]; [apply Hne; exact E | apply Hin; exact E].
      * destruct Hrx as [-> | ->]; [left | right]; reflexivity.
Qed.

(** X17: a pass of [loop] stores at most 500 bytes of input, none of them
    a newline, so [receivedBuffer[bytesRead]] lies inside the 501-byte
    buffer; it consumes exactly these bytes and the newline after them, if
    one came; and whenever the pass has a result, the bytes left unread
    are the rest of the input and the buffers are those of the split. *)
Theorem loop_consumes_one_line net d c rx :
  (List.length (fst (readBytesUntil newline 500 (c :: rx))) <= 500)%nat /\
  ~ In newline (fst (readBytesUntil newline 500 (c :: rx))) /\
  (c :: rx = fst (readBytesUntil newline 500 (c :: rx)) ++
             snd (readBytesUntil newline 500 (c :: rx)) \/
   c :: rx = fst (readBytesUntil newline 500 (c :: rx)) ++
             newline :: snd (readBytesUntil newline 500 (c :: rx))) /\
  match Esp.loop net d (c :: rx) with
  | Some (d', rest, _) =>
      rest = snd (readBytesUntil newline 500 (c :: rx)) /\
      d' = snd (parse (fst (readBytesUntil newline 500 (c :: rx))) d)
  | None => (140 < payload_chars (snd (parse (fst (readBytesUntil newline 500 (c :: rx))) d)))%nat
  end.
Proof.
  destruct (readBytesUntil_accounts newline 500 (c :: rx)) as (Hl & Hin & Hrx).
  split; [exact Hl|]. split; [exact Hin|]. split; [exact Hrx|].
  rewrite loop_calls_sendData. cbv zeta.
  pose proof (sendData_overrun net
                (snd (parse (fst (readBytesUntil newline 500 (c :: rx))) d))) as H.
  destruct (sendData net (snd (parse (fst (readBytesUntil newline 500 (c :: rx))) d))).
  - split; reflexivity.
  - apply H. reflexivity.
Qed.

(** * Further properties of the frame encoder *)

(** ** The numbers in the frame *)

Lemma digit_value_digit d : 0 <= d < 10 -> digit_value (digit d) = d.
Proof.
  intros H.
  assert (E : d = 0 \/ d = 1 \/ d = 2 \/ d = 3 \/ d = 4 \/
              d = 5 \/ d = 6 \/ d = 7 \/ d = 8 \/ d = 9) by lia.
  repeat (destruct E as [->|E]; [reflexivity|]). subst d. reflexivity.
Qed.

Lemma digit_not_minus d : 0 <= d < 10 -> Ascii.eqb (digit d) minus = false.
Proof.
  intros H.
  assert (E : d = 0 \/ d = 1 \/ d = 2 \/ d = 3 \/ d = 4 \/
              d = 5 \/ d = 6 \/ d = 7 \/ d = 8 \/ d = 9) by lia.
  repeat (destruct E as [->|E]; [reflexivity|]). subst d. reflexivity.
Qed.

Lemma utoa_value fuel n acc :
  0 <= n < 10 ^ Z.of_nat fuel ->
  digits_value (utoa fuel n acc) 0 = digits_value acc n.
Proof.
  revert n acc. induction fuel as [|fuel IH]; intros n acc Hn.
  - change (10 ^ Z.of_nat 0) with 1 in Hn. assert (n = 0) by lia. subst n. reflexivity.
  - rewrite Nat2Z.inj_succ, Z.pow_succ_r in Hn by lia.
    pose proof (Z.div_mod n 10 ltac:(lia)) as Hdm.
    pose proof (Z.mod_pos_bound n 10 ltac:(lia)) as Hm.
    cbn [utoa]. destruct (Z.eqb_spec (n / 10) 0) as [E|E].
    + unfold digits_value. cbn [fold_left].
      rewrite digit_value_digit by exact Hm. f_equal. lia.
    + rewrite IH.
      * unfold digits_value. cbn [fold_left].
        rewrite digit_value_digit by exact Hm. f_equal. lia.
      * split; [apply Z.div_pos; lia | apply Z.div_lt_upper_bound; lia].
Qed.

Lemma utoa_head_not_minus fuel n acc :
  0 <= n -> exists c rest, utoa (S fuel) n acc = c :: rest /\ Ascii.eqb c minus = false.
Proof.
  revert n acc. induction fuel as [|fuel IH]; intros n acc Hn.
  - cbn [utoa]. exists (digit (n mod 10)), acc.
    split; [destruct (n / 10 =? 0); reflexivity|].
    apply digit_not_minus. apply Z.mod_pos_bound. lia.
  - change (utoa (S (S fuel)) n acc)
      with (if n / 10 =? 0 then digit (n mod 10) :: acc
            else utoa (S fuel) (n / 10) (digit (n mod 10) :: acc)).
    destruct (n / 10 =? 0).
    + exists (digit (n mod 10)), acc. split; [reflexivity|].
      apply digit_not_minus. apply Z.mod_pos_bound. lia.
    + apply IH. apply Z.div_pos; lia.
Qed.

(** The text [%d] produces denotes the number printed. *)
Lemma fmt_d_value n : - 10 ^ 10 < n < 10 ^ 10 -> decimal_value (fmt_d n) = n.
Proof.
  intros Hn. unfold fmt_d. destruct (Z.ltb_spec n 0).
  - unfold decimal_value. rewrite Ascii.eqb_refl.
    rewrite utoa_value by (change (10 ^ Z.of_nat 10) with (10 ^ 10); lia).
    unfold digits_value. cbn [fold_left]. lia.
  - destruct (utoa_head_not_minus 9 n [] ltac:(lia)) as (c & rest & E & Hc).
    unfold decimal_value. rewrite E, Hc, <- E.
    rewrite utoa_value by (change (10 ^ Z.of_nat 10) with (10 ^ 10); lia).
    reflexivity.
Qed.

(** X18: a numeric field of the frame is the decimal text of the sensor
    value read as a 16-bit signed [int]: it denotes the value itself up to
    32767, and the value minus 65536 from 32768 on. *)
Theorem numeric_field_denotes_signed_value v :
  is_u16 v ->
  decimal_value (fmt_d_u16 v) = if v <? 32768 then v else v - 65536.
Proof.
  unfold is_u16. intros Hv. unfold fmt_d_u16.
  pose proof (s16_range v) as Hr. unfold is_s16 in Hr.
  rewrite fmt_d_value by (change (10 ^ 10) with 10000000000; lia).
  unfold s16. destruct (Z.ltb_spec v 32768).
  - rewrite Z.mod_small by lia. lia.
  - replace (v + 32768) with (v - 32768 + 1 * 65536) by lia.
    rewrite Z_mod_plus_full, Z.mod_small by lia. lia.
Qed.

Lemma numeric_field_denotes_signed_value_witness :
  decimal_value (fmt_d_u16 1500) = 1500 /\ decimal_value (fmt_d_u16 62768) = -2768.
Proof.
  split.
  - apply (numeric_field_denotes_signed_value 1500). unfold is_u16. lia.
  - apply (numeric_field_denotes_signed_value 62768). unfold is_u16. lia.
Defined.

(** ** A failed DHT read inside a window *)

Lemma relay_block_env p s : env_fields (fst (relay_block p s)) = env_fields s.
Proof. block_cases s p; unfold env_fields; simpl; split_compare; reflexivity. Qed.

Lemma RelayOperation_env s : env_fields (fst (RelayOperation s)) = env_fields s.
Proof. rewrite RelayOperation_blocks, !fst_seq, !relay_block_env. reflexivity. Qed.

Lemma send_frame_env s : env_fields (fst (send_frame s)) = env_fields s.
Proof.
  run_proc. simpl.
  repeat match goal with
    | |- context [if ?c then _ else _] => destruct c; simpl
    end; reflexivity.
Qed.

Section FailedReadFacts.
Context {F : FloatOps}.

Lemma ReadSensor_values_nan i s :
  isnan (dht_humidity i) || isnan (dht_temperature i) || isnan (dht_fahrenheit i) = true ->
  env_fields (fst (ReadSensor_values i s)) = env_fields s /\
  Sensor4_Val (fst (ReadSensor_values i s)) = Sensor4_Val s /\
  In (SerialPrintln (str "Failed to read from DHT sensor!")) (snd (ReadSensor_values i s)).
Proof.
  intros Hnan.
  assert (E : forall s0, DHT11_read i s0 =
                         (s0, [SerialPrintln (str "Failed to read from DHT sensor!")])).
  { intros s0. unfold DHT11_read. rewrite Hnan. reflexivity. }
  unfold ReadSensor_values. split; [|split].
  - rewrite !fst_seq, E. simpl. run_proc. simpl.
    repeat match goal with
      | |- context [if ?c then _ else _] => destruct c; simpl
      end; reflexivity.
  - rewrite !fst_seq, E. simpl. run_proc. simpl.
    repeat match goal with
      | |- context [if ?c then _ else _] => destruct c; simpl
      end; reflexivity.
  - rewrite !snd_seq, E. cbn [snd].
    repeat (apply in_or_app; right). left. reflexivity.
Qed.

Lemma loop_due_relays i s p :
  relay_inv s -> due i s = true ->
  flag p (fst (Nano.loop i s)) =
    flag_of (triggered p (fst (ReadSensor_values i (fst (Cal_RPM s))))) /\
  out p (fst (Nano.loop i s)) =
    level_of (triggered p (fst (ReadSensor_values i (fst (Cal_RPM s))))).
Proof.
  intros Hinv Hdue. destruct (loop_due i s Hdue) as [-> _].
  set (s2 := fst (ReadSensor_values i (fst (Cal_RPM s)))).
  assert (Hinv2 : relay_inv s2).
  { apply (same_relays_inv _ _ (ReadSensor_values_same_relays i _)).
    apply (same_relays_inv _ _ (Cal_RPM_same_relays s)). exact Hinv. }
  destruct (RelayOperation_channel s2 p Hinv2) as (Hf & Ho & _).
  destruct (send_frame_same_relays (fst (RelayOperation s2)) p) as [Hf' Ho'].
  split.
  - transitivity (flag p (fst (send_frame (fst (RelayOperation s2)))));
      [destruct p; reflexivity|]. rewrite Hf'. exact Hf.
  - transitivity (out p (fst (send_frame (fst (RelayOperation s2)))));
      [destruct p; reflexivity|]. rewrite Ho'. exact Ho.
Qed.

(** X19: when a window is evaluated and one of the DHT readings is
    not-a-number, the pass logs the failure, ends with the five
    environmental fields of the previous window, and sets the temperature
    relay by that previous temperature: flag and pin stand for
    [old Sensor4_Val > 30]. *)
Theorem failed_read_decides_on_old_temperature i s :
  relay_inv s -> due i s = true ->
  isnan (dht_humidity i) || isnan (dht_temperature i) || isnan (dht_fahrenheit i) = true ->
  env_fields (fst (Nano.loop i s)) = env_fields s /\
  flag RLY3 (fst (Nano.loop i s)) = flag_of (DHT11_NORMAL <? Sensor4_Val s) /\
  out RLY3 (fst (Nano.loop i s)) = level_of (DHT11_NORMAL <? Sensor4_Val s) /\
  In (SerialPrintln (str "Failed to read from DHT sensor!")) (snd (Nano.loop i s)).
Proof.
  intros Hinv Hdue Hnan.
  destruct (ReadSensor_values_nan i (fst (Cal_RPM s)) Hnan) as (Henv & E4 & Hlog).
  change (Sensor4_Val (fst (Cal_RPM s))) with (Sensor4_Val s) in E4.
  destruct (loop_due_relays i s RLY3 Hinv Hdue) as [Hf Ho].
  unfold triggered, sample, bound in Hf, Ho. rewrite E4 in Hf, Ho.
  split; [|split; [exact Hf | split; [exact Ho|]]].
  - destruct (loop_due i s Hdue) as [-> _].
    transitivity (env_fields (fst (send_frame
      (fst (RelayOperation (fst (ReadSensor_values i (fst (Cal_RPM s)))))))));
      [reflexivity|].
    rewrite send_frame_env, RelayOperation_env, Henv. reflexivity.
  - destruct (loop_due i s Hdue) as [_ ->].
    apply in_or_app. right. apply in_or_app. left. exact Hlog.
Qed.

End FailedReadFacts.

Lemma failed_read_decides_on_old_temperature_witness :
  let s := set_dht_fields 35 60 95 40 104 ExactFloat.booted in
  let i := ExactFloat.window_nan 20000 512 300 in
  env_fields (fst (Nano.loop i s)) = (35, 60, 95, 40, 104) /\
  flag RLY3 (fst (Nano.loop i s)) = 1 /\
  out RLY3 (fst (Nano.loop i s)) = LOW /\
  In (SerialPrintln (str "Failed to read from DHT sensor!")) (snd (Nano.loop i s)).
Proof.
  apply (failed_read_decides_on_old_temperature
           (ExactFloat.window_nan 20000 512 300)
           (set_dht_fields 35 60 95 40 104 ExactFloat.booted)).
  - intros p. exists false. destruct p; split; reflexivity.
  - reflexivity.
  - reflexivity.
Defined.
